(** * stat_ts: trading statistics of a PnL series

    A shallow embedding of [src/core.py] (functions [_empty_row],
    [_calc_consecutive] and [stat_ts]) together with the properties of the
    natural-language specification that can be settled on it.

    Numbers.  numpy's [float64] is IEEE-754 binary64; it is modelled by the
    Standard Library's [spec_float] with precision 53 and maximal exponent
    1024, so additions, products, quotients, square roots and comparisons
    are the correctly rounded IEEE operations, with signed zeros, infinities
    and NaN.  Python's [int] is [Z].

    Reductions.  [sum], [mean], [std] and [cumsum] accumulate from left to
    right, one IEEE addition per element.  numpy sums eight values or
    more by pairwise blocks and pandas sums the values of a group with a
    compensation term; both can differ from the plain sum in the last
    bits and in the sign of a zero.  This is not modelled: what is
    proved of the value of a daily bar is stated for the bars on which
    every order of summation agrees (no value, one value, integers
    whose sum is exact), and the other properties hold whatever the sum
    of a day is, or are about its sign only.

    Timestamps.  A [DatetimeIndex] is a list of numbers of nanoseconds
    since the epoch, without time zone; the calendar day of a timestamp
    is its quotient by the nanoseconds of a day.

    Exceptions.  A Python exception is a value [Raise e] of the [result]
    type; only the exceptions the code can raise on well-typed arguments
    occur: [ZeroDivisionError] and [OverflowError] from the division of
    two [int]s, [OverflowError] and [ValueError] from [int(...)],
    [ValueError] from the construction of the frame and from [np.min],
    [TypeError] from [np.sqrt] of an [int] that fits no 64-bit integer.
    A division by zero between numpy scalars gives an infinity or NaN
    (with a warning), not an exception. *)

From Stdlib Require Import String Ascii.
From Stdlib Require Import ZArith List Bool Lia Permutation Sorted.
From Stdlib Require Import SpecFloat.
Import ListNotations.
Open Scope string_scope.
Open Scope list_scope.
Open Scope Z_scope.

(** ** IEEE-754 binary64 *)

Module F64.

Definition t : Type := spec_float.

Definition prec : Z := 53.
Definition emax : Z := 1024.

(** The exponent of the smallest subnormal numbers. *)
Definition emin : Z := SpecFloat.emin prec emax.

Definition zero : t := S754_zero false.
Definition inf : t := S754_infinity false.
Definition nan : t := S754_nan.

Definition add : t -> t -> t := SFadd prec emax.
Definition sub : t -> t -> t := SFsub prec emax.
Definition mul : t -> t -> t := SFmul prec emax.
Definition div : t -> t -> t := SFdiv prec emax.
Definition sqrt : t -> t := SFsqrt prec emax.
Definition abs : t -> t := SFabs.

Definition eqb : t -> t -> bool := SFeqb.
Definition ltb : t -> t -> bool := SFltb.
Definition leb : t -> t -> bool := SFleb.
Definition gtb (x y : t) : bool := ltb y x.
Definition geb (x y : t) : bool := leb y x.
(** [x != y]: true as soon as one side is NaN. *)
Definition neb (x y : t) : bool := negb (eqb x y).

Definition is_nan (x : t) : bool :=
  match x with S754_nan => true | _ => false end.

Definition is_finite (x : t) : bool :=
  match x with S754_zero _ | S754_finite _ _ _ => true | _ => false end.

(** Conversion of an integer, rounded to nearest even. *)
Definition of_Z (z : Z) : t := binary_normalize prec emax z 0 false.

(** The quotient [a / b] of two integers, [b] not zero, rounded once
    (the true division of two Python [int]s): the division is applied to
    the integers themselves, taken as mantissas of exponent 0. *)
Definition raw (z : Z) : t :=
  match z with
  | Z0 => S754_zero false
  | Zpos p => S754_finite false p 0
  | Zneg p => S754_finite true p 0
  end.

Definition div_Z (a b : Z) : t := div (raw a) (raw b).

(** [rint]: the nearest integer, ties to even, keeping the sign. *)
Definition rint (x : t) : t :=
  match x with
  | S754_finite s m (Zneg k) =>
      let d := Z.pow_pos 2 k in
      let q := Z.pos m / d in
      let r := Z.pos m mod d in
      let q' := match Z.compare (2 * r) d with
                | Lt => q
                | Gt => q + 1
                | Eq => if Z.even q then q else q + 1
                end in
      binary_normalize prec emax (cond_Zopp s q') 0 s
  | _ => x
  end.

(** Truncation toward zero of a finite value. *)
Definition trunc (x : t) : option Z :=
  match x with
  | S754_zero _ => Some 0
  | S754_finite s m (Zneg k) => Some (cond_Zopp s (Z.pos m / Z.pow_pos 2 k))
  | S754_finite s m e => Some (cond_Zopp s (Z.pos m * 2 ^ e))
  | _ => None
  end.

(** Truth value of a float: anything but a zero, NaN included. *)
Definition truthy (x : t) : bool := neb x zero.

End F64.

(** ** Python values, exceptions *)

Inductive exn : Type :=
  ZeroDivisionError | OverflowError | ValueError | TypeError.

Inductive result (A : Type) : Type :=
| Ok (a : A)
| Raise (e : exn).
Arguments Ok {A} a.
Arguments Raise {A} e.

Definition bind {A B : Type} (r : result A) (k : A -> result B) : result B :=
  match r with
  | Ok a => k a
  | Raise e => Raise e
  end.

Notation "x <- r ;; k" := (bind r (fun x => k))
  (at level 61, r at next level, right associativity).

(** A number held by a cell of the result: a Python [int] or a float. *)
Inductive num : Type := PyInt (z : Z) | PyFloat (x : F64.t).

(** A row label: [int | str]. *)
Inductive row_id : Type := IdInt (z : Z) | IdStr (s : string).

(** A [pd.DataFrame] of results: the row labels and, in insertion order,
    the columns with one cell per row; [None] is Python's [None]. *)
Record DataFrame : Type := mkDataFrame {
  index : list row_id;
  columns : list (string * list (option num))
}.

(** [pd.DataFrame(d, index=[idx])] for a dict [d] of scalars. *)
Definition DataFrame_of_scalars (d : list (string * option num)) (idx : row_id)
  : DataFrame :=
  mkDataFrame [idx] (map (fun kv => (fst kv, [snd kv])) d).

Definition column_names (df : DataFrame) : list string := map fst (columns df).

Definition shape (df : DataFrame) : nat * nat :=
  (length (index df), length (columns df)).

(** [df.loc[idx, name]]. *)
Fixpoint lookup_cells (name : string) (cols : list (string * list (option num)))
  : option (list (option num)) :=
  match cols with
  | [] => None
  | (k, c) :: rest => if String.eqb k name then Some c else lookup_cells name rest
  end.

Definition row_id_eqb (a b : row_id) : bool :=
  match a, b with
  | IdInt x, IdInt y => x =? y
  | IdStr x, IdStr y => String.eqb x y
  | _, _ => false
  end.

Fixpoint position (idx : row_id) (ix : list row_id) : option nat :=
  match ix with
  | [] => None
  | i :: rest => if row_id_eqb i idx then Some 0%nat
                 else option_map S (position idx rest)
  end.

Definition loc (df : DataFrame) (idx : row_id) (name : string)
  : option (option num) :=
  match position idx (index df), lookup_cells name (columns df) with
  | Some i, Some c => nth_error c i
  | _, _ => None
  end.

(** Python arithmetic on numbers. *)

(** [a / b] on two [int]s. *)
Definition int_truediv (a b : Z) : result F64.t :=
  if b =? 0 then Raise ZeroDivisionError
  else let q := F64.div_Z a b in
       if F64.is_finite q then Ok q else Raise OverflowError.

(** [float(n)] for an [int]. *)
Definition float_of_int (n : Z) : result F64.t :=
  let x := F64.of_Z n in
  if F64.is_finite x then Ok x else Raise OverflowError.

(** [int(x)] for a float. *)
Definition int_of_float (x : F64.t) : result Z :=
  match F64.trunc x with
  | Some z => Ok z
  | None => if F64.is_nan x then Raise ValueError else Raise OverflowError
  end.

(** [v * k] for an [int] constant [k]. *)
Definition mul_int (v : num) (k : Z) : num :=
  match v with
  | PyInt z => PyInt (z * k)
  | PyFloat x => PyFloat (F64.mul x (F64.of_Z k))
  end.

(** [round(v, n)]: an [int] is returned as it is; a float goes through
    numpy's [round]: multiply by [10**n], [rint], divide by [10**n]. *)
Definition np_round (x : F64.t) (n : Z) : F64.t :=
  let f := F64.of_Z (10 ^ n) in
  F64.div (F64.rint (F64.mul x f)) f.

Definition round (v : num) (n : Z) : num :=
  match v with
  | PyInt z => PyInt z
  | PyFloat x => PyFloat (np_round x n)
  end.

(** ** numpy on one-dimensional [float64] arrays *)

Definition np_sum (a : list F64.t) : F64.t := fold_left F64.add a F64.zero.

Definition np_count_nonzero (a : list F64.t) : Z :=
  Z.of_nat (length (filter (fun x => F64.neb x F64.zero) a)).

(** [np.cumsum]: the running sums, the first one being the first element. *)
Fixpoint accumulate (f : F64.t -> F64.t -> F64.t) (acc : F64.t) (a : list F64.t)
  : list F64.t :=
  match a with
  | [] => []
  | x :: rest => let acc' := f acc x in acc' :: accumulate f acc' rest
  end.

Definition np_cumsum (a : list F64.t) : list F64.t :=
  match a with
  | [] => []
  | x :: rest => x :: accumulate F64.add x rest
  end.

(** [np.maximum] and [np.minimum] hand a NaN operand on. *)
Definition np_maximum (x y : F64.t) : F64.t :=
  if F64.geb x y || F64.is_nan x then x else y.

Definition np_minimum (x y : F64.t) : F64.t :=
  if F64.leb x y || F64.is_nan x then x else y.

Definition np_maximum_accumulate (a : list F64.t) : list F64.t :=
  match a with
  | [] => []
  | x :: rest => x :: accumulate np_maximum x rest
  end.

(** [np.min] raises [ValueError] on an empty array. *)
Definition np_min (a : list F64.t) : result F64.t :=
  match a with
  | [] => Raise ValueError
  | x :: rest => Ok (fold_left np_minimum rest x)
  end.

(** [a - b], element by element. *)
Definition np_subtract (a b : list F64.t) : list F64.t :=
  map (fun p => F64.sub (fst p) (snd p)) (combine a b).

(** ** pandas on a float column: reductions skip NaN *)

Definition dropna (a : list F64.t) : list F64.t :=
  filter (fun x => negb (F64.is_nan x)) a.

Definition pd_sum (a : list F64.t) : F64.t := np_sum (dropna a).

Definition pd_count (a : list F64.t) : Z := Z.of_nat (length (dropna a)).

Definition pd_mean (a : list F64.t) : F64.t :=
  F64.div (pd_sum a) (F64.of_Z (pd_count a)).

(** [std(ddof=0)]: the mean, the squared deviations from it, their mean,
    and the square root. *)
Definition pd_std0 (a : list F64.t) : F64.t :=
  let avg := pd_mean a in
  let sqr := map (fun v => let d := F64.sub avg v in F64.mul d d) (dropna a) in
  F64.sqrt (F64.div (np_sum sqr) (F64.of_Z (pd_count a))).

(** *** [pd.DataFrame({"pnl": pnl}, index=dates).resample("1D").sum()]

    A timestamp is a number of nanoseconds since the epoch.  The frame
    needs as many dates as values.  Resampling orders the rows by
    timestamp (a stable sort) and makes one bin per calendar day from the
    day of the earliest row to the day of the latest; a bin holds the sum
    of its rows, [0.0] when it has none. *)

Definition NS_PER_DAY : Z := 86400000000000.

Definition day_of (ts : Z) : Z := ts / NS_PER_DAY.

Definition make_frame (dates : list Z) (pnl : list F64.t)
  : result (list (Z * F64.t)) :=
  if (length dates =? length pnl)%nat then Ok (combine dates pnl)
  else Raise ValueError.

Fixpoint insert_by_time (r : Z * F64.t) (rows : list (Z * F64.t))
  : list (Z * F64.t) :=
  match rows with
  | [] => [r]
  | r' :: rest => if fst r <=? fst r' then r :: rows
                  else r' :: insert_by_time r rest
  end.

Definition sort_by_time (rows : list (Z * F64.t)) : list (Z * F64.t) :=
  fold_right insert_by_time [] rows.

(** The calendar days [first], [first + 1], ..., [last]. *)
Definition day_range (first last : Z) : list Z :=
  map (fun i => first + Z.of_nat i) (seq 0 (Z.to_nat (last - first + 1))).

Definition values_on (d : Z) (rows : list (Z * F64.t)) : list F64.t :=
  map snd (filter (fun r => day_of (fst r) =? d) rows).

Definition resample_1D_sum (rows : list (Z * F64.t)) : list (Z * F64.t) :=
  let sorted := sort_by_time rows in
  match sorted with
  | [] => []
  | r0 :: _ =>
      map (fun d => (d, pd_sum (values_on d sorted)))
          (day_range (day_of (fst r0)) (day_of (fst (last sorted r0))))
  end.

(** ** core.py *)

Definition postfix_of (target : string) : string :=
  if String.eqb target "pct" then "%" else "pp".

(** [100 if target_type == "pct" else 1] *)
Definition scale_of (target : string) : Z :=
  if String.eqb target "pct" then 100 else 1.

Definition _empty_row (idx : row_id) (target : string) : DataFrame :=
  let postfix := postfix_of target in
  let base_cols :=
    [ ("sharpe", None);
      ("sortino", None);
      ("Kelly, %", None);
      ("trades/year", None);
      (String.append "return/year, " postfix, None);
      (String.append "return/trade, " postfix, None);
      ("PF", None);
      ("Win, %", None);
      (String.append "Avg Win, " postfix, None);
      (String.append "Avg Loss, " postfix, None);
      ("Max wins in row", None);
      ("Max losses in row", None);
      (String.append "Max DD, " postfix, None) ] in
  DataFrame_of_scalars base_cols idx.

(** One turn of the loop of [_calc_consecutive] on the pair
    [(best, current)]. *)
Definition cond_of (positive : bool) (val : F64.t) : bool :=
  if positive then F64.gtb val F64.zero else F64.ltb val F64.zero.

Definition consecutive_step (positive : bool) (st : Z * Z) (val : F64.t)
  : Z * Z :=
  let '(best, current) := st in
  if cond_of positive val then
    let current := current + 1 in
    (Z.max best current, current)
  else (best, 0).

Definition _calc_consecutive (series : list F64.t) (positive : bool) : Z :=
  fst (fold_left (consecutive_step positive) series (0, 0)).

(** The local variables of [stat_ts] that the properties below speak
    about, each as a function of what it is computed from; [df_pnl] is the
    column [df["pnl"]] of daily bars. *)

Definition is_pos (x : F64.t) : bool := F64.gtb x F64.zero.
Definition is_neg (x : F64.t) : bool := F64.ltb x F64.zero.
Definition is_nonzero (x : F64.t) : bool := F64.neb x F64.zero.

Definition daily_bars (frame : list (Z * F64.t)) : list F64.t :=
  map snd (resample_1D_sum frame).

(** [np.sqrt(n)] for a Python [int].  numpy converts the integer to
    [int64] or, from [2^63] on, to [uint64], then to a float, and takes
    the root; an integer that fits neither type becomes an array of
    objects, for which the ufunc has no loop: [TypeError].
    [np_sqrt_int n] is the value when there is one. *)
Definition np_sqrt_int (n : Z) : F64.t := F64.sqrt (F64.of_Z n).

Definition np_sqrt (n : Z) : result F64.t :=
  if (- 2 ^ 63 <=? n) && (n <? 2 ^ 64) then Ok (np_sqrt_int n)
  else Raise TypeError.

(** [round((daily_mean / std) * np.sqrt(days_in_year), 3) if std else np.inf]
    (lines 125 and 129): the root is taken only when [std] is truthy. *)
Definition annualised_ratio (daily_mean std : F64.t) (days_in_year : Z)
  : result F64.t :=
  if F64.truthy std
  then root <- np_sqrt days_in_year ;;
       Ok (np_round (F64.mul (F64.div daily_mean std) root) 3)
  else Ok F64.inf.

(** The value of [sharpe] when line 125 raises nothing. *)

Definition sharpe_of (df_pnl : list F64.t) (days_in_year : Z) : F64.t :=
  let daily_mean := pd_mean df_pnl in
  let daily_std := pd_std0 df_pnl in
  if F64.truthy daily_std
  then np_round (F64.mul (F64.div daily_mean daily_std) (np_sqrt_int days_in_year)) 3
  else F64.inf.

Definition pnl_negative (df_pnl : list F64.t) : list F64.t :=
  map (fun x => if is_neg x then x else F64.zero) df_pnl.

(** The value of [sortino] when line 129 raises nothing. *)
Definition sortino_of (df_pnl : list F64.t) (days_in_year : Z) : F64.t :=
  let daily_mean := pd_mean df_pnl in
  let neg_std := pd_std0 (pnl_negative df_pnl) in
  if F64.truthy neg_std
  then np_round (F64.mul (F64.div daily_mean neg_std) (np_sqrt_int days_in_year)) 3
  else F64.inf.

Definition profit_factor_of (df_pnl : list F64.t) : F64.t :=
  let positive_sum := pd_sum (filter is_pos df_pnl) in
  let negative_sum := pd_sum (filter is_neg df_pnl) in
  if F64.truthy negative_sum
  then F64.abs (F64.div positive_sum negative_sum)
  else F64.inf.

Definition win_pct_of (df_pnl : list F64.t) : F64.t :=
  let win_days := filter is_pos df_pnl in
  F64.div (F64.of_Z (Z.of_nat (length win_days)))
          (F64.of_Z (np_count_nonzero df_pnl)).

Definition kelly_of (win_pct profit_factor : F64.t) : num :=
  if F64.truthy profit_factor
  then PyFloat (np_round
         (F64.mul (F64.sub win_pct
                     (F64.div (F64.sub (F64.of_Z 1) win_pct) profit_factor))
                  (F64.of_Z 100)) 2)
  else PyInt 0.

Definition pnl_nz_of (df_pnl : list F64.t) : list F64.t :=
  filter is_nonzero df_pnl.

Definition drawdown_of (pnl_nz : list F64.t) : result F64.t :=
  let cs := np_cumsum pnl_nz in
  np_min (np_subtract cs (np_maximum_accumulate cs)).

Definition avg_of (keep : F64.t -> bool) (df_pnl : list F64.t) (target : string)
  : num :=
  if existsb keep df_pnl
  then PyFloat (np_round
         (F64.mul (pd_mean (filter keep df_pnl)) (F64.of_Z (scale_of target))) 3)
  else PyInt 0.

Definition stat_ts (dates : list Z) (pnl : list F64.t) (test_period : Z)
    (idx : row_id) (target_type : string) (days_in_year : Z)
  : result DataFrame :=
  (* quick exit when there is too little data *)
  if (length pnl <=? 1)%nat then Ok (_empty_row idx target_type) else
  (* 1. annualisation *)
  annual_coef <- int_truediv days_in_year test_period ;;
  n_trades <- float_of_int (np_count_nonzero pnl) ;;
  trades <- int_of_float (F64.mul n_trades annual_coef) ;;
  let total_return := F64.mul (np_sum pnl) annual_coef in
  let return_per_trade :=
    if np_count_nonzero pnl =? 0 then PyInt 0
    else PyFloat (F64.div (np_sum pnl) (F64.of_Z (np_count_nonzero pnl))) in
  (* 2. daily aggregation *)
  frame <- make_frame dates pnl ;;
  let df_pnl := daily_bars frame in
  let daily_mean := pd_mean df_pnl in
  let daily_std := pd_std0 df_pnl in
  sharpe <- annualised_ratio daily_mean daily_std days_in_year ;;
  let neg_std := pd_std0 (pnl_negative df_pnl) in
  sortino <- annualised_ratio daily_mean neg_std days_in_year ;;
  let profit_factor := profit_factor_of df_pnl in
  let win_pct := win_pct_of df_pnl in
  let kelly := kelly_of win_pct profit_factor in
  (* 3. streaks and drawdown *)
  let pnl_nz := pnl_nz_of df_pnl in
  let max_win_cons := _calc_consecutive pnl_nz true in
  let max_loss_cons := _calc_consecutive pnl_nz false in
  drawdown <- drawdown_of pnl_nz ;;
  let max_dd := np_round (F64.mul drawdown (F64.of_Z (scale_of target_type))) 2 in
  let avg_win := avg_of is_pos df_pnl target_type in
  let avg_loss := avg_of is_neg df_pnl target_type in
  (* 4. the result row *)
  let postfix := postfix_of target_type in
  let result :=
    [ ("sharpe", Some (PyFloat sharpe));
      ("sortino", Some (PyFloat sortino));
      ("Kelly, %", Some kelly);
      ("trades/year", Some (PyInt trades));
      (String.append "return/year, " postfix,
        Some (round (mul_int (PyFloat total_return) (scale_of target_type)) 2));
      (String.append "return/trade, " postfix,
        Some (round (mul_int return_per_trade (scale_of target_type)) 3));
      ("PF", Some (PyFloat (np_round profit_factor 2)));
      ("Win, %", Some (PyFloat (np_round (F64.mul win_pct (F64.of_Z 100)) 2)));
      (String.append "Avg Win, " postfix, Some avg_win);
      (String.append "Avg Loss, " postfix, Some avg_loss);
      ("Max wins in row", Some (PyInt max_win_cons));
      ("Max losses in row", Some (PyInt max_loss_cons));
      (String.append "Max DD, " postfix, Some (PyFloat max_dd)) ] in
  Ok (DataFrame_of_scalars result idx).

(** Step 1 of [stat_ts] up to [trades]: the three operations of the
    annualisation that can raise. *)
Definition trades_per_year (pnl : list F64.t) (test_period days_in_year : Z)
  : result Z :=
  annual_coef <- int_truediv days_in_year test_period ;;
  n_trades <- float_of_int (np_count_nonzero pnl) ;;
  int_of_float (F64.mul n_trades annual_coef).

(** Float and timestamp literals for the examples. *)
Definition fl (z : Z) : F64.t := F64.of_Z z.
Definition day (n : Z) : Z := n * NS_PER_DAY.
(** The double that the decimal literal [m / 10^e] denotes. *)
Definition decimal (m e : Z) : F64.t := F64.div_Z m (10 ^ e).
(** Monday 2024-01-01, in days since the epoch. *)
Definition monday : Z := 19723.

(** ** Definitions that follow the specification's words *)

(** The 13 field names of the result schema, in order, [U] being ["%"] in
    percentage mode and ["pp"] otherwise. *)
Definition schema_spec (target : string) : list string :=
  let U := if String.eqb target "pct" then "%" else "pp" in
  [ "sharpe"; "sortino"; "Kelly, %"; "trades/year";
    String.append "return/year, " U; String.append "return/trade, " U;
    "PF"; "Win, %";
    String.append "Avg Win, " U; String.append "Avg Loss, " U;
    "Max wins in row"; "Max losses in row"; String.append "Max DD, " U ].

(** The longest run of consecutive values satisfying [p]: the largest,
    over the start positions, of the number of values satisfying [p] in
    a row from there. *)
Fixpoint run_from {A : Type} (p : A -> bool) (l : list A) : nat :=
  match l with
  | [] => 0%nat
  | x :: rest => if p x then S (run_from p rest) else 0%nat
  end.

Fixpoint longest_run_spec {A : Type} (p : A -> bool) (l : list A) : nat :=
  match l with
  | [] => 0%nat
  | _ :: rest => Nat.max (run_from p l) (longest_run_spec p rest)
  end.

(** The sign test of the streak counter in the specification's words:
    strictly above zero when [want_positive], strictly below zero
    otherwise.  A float is strictly above zero when it is a non-zero
    number (finite or infinite) whose sign bit is clear, strictly below
    when its sign bit is set; a zero of either sign and NaN are
    neither. *)
Definition strictly_positive_spec (x : F64.t) : bool :=
  match x with
  | S754_finite false _ _ | S754_infinity false => true
  | _ => false
  end.

Definition strictly_negative_spec (x : F64.t) : bool :=
  match x with
  | S754_finite true _ _ | S754_infinity true => true
  | _ => false
  end.

Definition sign_matches_spec (want_positive : bool) (x : F64.t) : bool :=
  if want_positive then strictly_positive_spec x else strictly_negative_spec x.

(** The sum of a list of integers, and of their absolute values. *)
Definition sum_Z (zs : list Z) : Z := fold_right Z.add 0 zs.

Definition sum_abs (zs : list Z) : Z :=
  fold_right (fun z acc => Z.abs z + acc) 0 zs.

(** The daily grouping in the specification's words: a mapping from
    calendar-day key to summed PnL, read in chronological order.  The
    keys are the days on which a row falls, kept in increasing order
    without repeats; the entry of a day is the sum (as pandas sums) of
    the values that fall on it. *)
Fixpoint insert_key (d : Z) (keys : list Z) : list Z :=
  match keys with
  | [] => [d]
  | k :: rest => if d <? k then d :: keys
                 else if d =? k then keys
                 else k :: insert_key d rest
  end.

Definition day_keys_spec (rows : list (Z * F64.t)) : list Z :=
  fold_right insert_key [] (map (fun r => day_of (fst r)) rows).

Definition day_total_spec (rows : list (Z * F64.t)) (d : Z) : F64.t :=
  pd_sum (values_on d rows).

Definition group_by_day_spec (rows : list (Z * F64.t)) : list F64.t :=
  map (day_total_spec rows) (day_keys_spec rows).

(** A row falls on day [d]. *)
Definition on_day (rows : list (Z * F64.t)) (d : Z) : bool :=
  existsb (fun r => day_of (fst r) =? d) rows.

(** Timestamps in non-decreasing order. *)
Definition by_time (a b : Z * F64.t) : Prop := fst a <= fst b.

(** ** Signs

    [has_sign s x]: [x] is a number (not NaN) whose sign bit is [s];
    the zeros have a sign too. *)
Definition has_sign (s : bool) (x : F64.t) : bool :=
  match x with
  | S754_zero s' | S754_infinity s' | S754_finite s' _ _ => Bool.eqb s s'
  | S754_nan => false
  end.

(** [x] is a zero, of either sign. *)
Definition is_zero (x : F64.t) : bool :=
  match x with S754_zero _ => true | _ => false end.



(** * Properties *)

(** ** The degenerate path *)

Lemma row_id_eqb_refl (i : row_id) : row_id_eqb i i = true.
Proof.
  destruct i as [z | s]; simpl.
  - apply Z.eqb_refl.
  - apply String.eqb_refl.
Qed.

Lemma empty_row_columns (idx : row_id) (target : string) :
  column_names (_empty_row idx target) = schema_spec target.
Proof. reflexivity. Qed.

(** The two ratios: what they are when they are computed, when they
    are computed, and what is raised when they are not. *)
Lemma annualised_ratio_ok (daily_mean std : F64.t) (diy : Z) (v : F64.t) :
  annualised_ratio daily_mean std diy = Ok v ->
  v = if F64.truthy std
      then np_round (F64.mul (F64.div daily_mean std) (np_sqrt_int diy)) 3
      else F64.inf.
Proof.
  unfold annualised_ratio, np_sqrt.
  destruct (F64.truthy std); [| intros H; injection H as <-; reflexivity].
  destruct (_ && _); [cbn [bind] | discriminate].
  intros H. injection H as <-. reflexivity.
Qed.

Lemma sharpe_ok (df_pnl : list F64.t) (diy : Z) (v : F64.t) :
  annualised_ratio (pd_mean df_pnl) (pd_std0 df_pnl) diy = Ok v ->
  v = sharpe_of df_pnl diy.
Proof. apply annualised_ratio_ok. Qed.

Lemma sortino_ok (df_pnl : list F64.t) (diy : Z) (v : F64.t) :
  annualised_ratio (pd_mean df_pnl) (pd_std0 (pnl_negative df_pnl)) diy = Ok v ->
  v = sortino_of df_pnl diy.
Proof. apply annualised_ratio_ok. Qed.


Lemma annualised_ratio_raises (daily_mean std : F64.t) (diy : Z) (e : exn) :
  annualised_ratio daily_mean std diy = Raise e ->
  e = TypeError /\ F64.truthy std = true /\ ~ (- 2 ^ 63 <= diy < 2 ^ 64).
Proof.
  unfold annualised_ratio, np_sqrt.
  destruct (F64.truthy std); [| discriminate].
  destruct (_ && _) eqn:E; [discriminate |].
  intros H. injection H as <-. split; [reflexivity |]. split; [reflexivity |].
  apply andb_false_iff in E as [E | E];
    [apply Z.leb_gt in E | apply Z.ltb_ge in E]; lia.
Qed.

(** Whichever path is taken, the columns of the returned frame are the
    schema of the unit mode. *)
Lemma stat_ts_columns dates pnl tp idx target diy df :
  stat_ts dates pnl tp idx target diy = Ok df ->
  column_names df = schema_spec target.
Proof.
  unfold stat_ts.
  destruct (length pnl <=? 1)%nat.
  - intros H. injection H as <-. reflexivity.
  - destruct (int_truediv diy tp); [cbn [bind] | discriminate].
    destruct (float_of_int _); [cbn [bind] | discriminate].
    destruct (int_of_float _); [cbn [bind] | discriminate].
    destruct (make_frame dates pnl); [cbn [bind] | discriminate].
    destruct (annualised_ratio _ _ _); [cbn [bind] | discriminate].
    destruct (annualised_ratio _ _ _); [cbn [bind] | discriminate].
    destruct (drawdown_of _); [cbn [bind] | discriminate].
    intros H. injection H as <-. reflexivity.
Qed.

(** C10.  With at most one pnl value the call returns the empty row of
    the row id and unit mode, whatever the dates, the test period and the
    days per year are: nothing is computed from them, so a zero test
    period, no dates at all or dates of another length change nothing. *)
Theorem short_series_ignores_other_arguments
    (pnl : list F64.t) (idx : row_id) (target : string) :
  (length pnl <= 1)%nat ->
  (forall dates tp diy,
      stat_ts dates pnl tp idx target diy = Ok (_empty_row idx target))
  /\ stat_ts [] pnl 0 idx target 0 = Ok (_empty_row idx target)
  /\ (forall pnl' dates dates' tp tp' diy diy',
        (length pnl' <= 1)%nat ->
        stat_ts dates pnl tp idx target diy
        = stat_ts dates' pnl' tp' idx target diy').
Proof.
  intros Hlen.
  assert (short : forall p : list F64.t, (length p <= 1)%nat ->
            forall dates tp diy,
              stat_ts dates p tp idx target diy = Ok (_empty_row idx target)).
  { intros p Hp dates tp diy. unfold stat_ts.
    apply Nat.leb_le in Hp. rewrite Hp. reflexivity. }
  repeat split.
  - apply short, Hlen.
  - apply short, Hlen.
  - intros pnl' dates dates' tp tp' diy diy' Hlen'.
    rewrite (short pnl Hlen), (short pnl' Hlen'). reflexivity.
Qed.

Lemma short_series_ignores_other_arguments_witness :
  (length [fl 7] <= 1)%nat
  /\ stat_ts [] [fl 7] 0 (IdStr "run-1") "nom" 0
     = Ok (_empty_row (IdStr "run-1") "nom").
Proof.
  split.
  - simpl. lia.
  - apply (short_series_ignores_other_arguments [fl 7] (IdStr "run-1") "nom").
    simpl. lia.
Defined.

(** C5.  With 0 or 1 pnl values the call succeeds and returns a frame of
    one row, labelled by the row id, whose 13 cells are all [None]; its
    column names are those of the schema for the unit mode, the same as
    the names of any frame the call returns for that unit mode. *)
Theorem short_series_gives_empty_row
    dates (pnl : list F64.t) tp (idx : row_id) (target : string) diy :
  (length pnl <= 1)%nat ->
  exists df,
    stat_ts dates pnl tp idx target diy = Ok df
    /\ index df = [idx]
    /\ shape df = (1%nat, 13%nat)
    /\ (forall name, In name (schema_spec target) -> loc df idx name = Some None)
    /\ Forall (fun col => snd col = [None]) (columns df)
    /\ column_names df = schema_spec target
    /\ (forall dates' pnl' tp' idx' diy' df',
          stat_ts dates' pnl' tp' idx' target diy' = Ok df' ->
          column_names df' = column_names df).
Proof.
  intros Hlen. exists (_empty_row idx target).
  split.
  { unfold stat_ts. apply Nat.leb_le in Hlen. rewrite Hlen. reflexivity. }
  split; [reflexivity |].
  split; [reflexivity |].
  split.
  { intros name Hin. unfold loc. cbn [index _empty_row DataFrame_of_scalars position].
    rewrite row_id_eqb_refl.
    unfold schema_spec in Hin. fold (postfix_of target) in Hin.
    cbn [In] in Hin.
    repeat (destruct Hin as [<- | Hin];
            [cbn; rewrite ?String.eqb_refl; reflexivity |]).
    contradiction. }
  split.
  { cbn. repeat constructor. }
  split; [reflexivity |].
  intros dates' pnl' tp' idx' diy' df' H.
  rewrite (stat_ts_columns _ _ _ _ _ _ _ H). reflexivity.
Qed.

Lemma short_series_gives_empty_row_witness :
  exists df,
    stat_ts [day 3] [fl 7] 1 (IdInt 0) "pct" 365 = Ok df
    /\ index df = [IdInt 0]
    /\ shape df = (1%nat, 13%nat).
Proof.
  destruct (short_series_gives_empty_row [day 3] [fl 7] 1 (IdInt 0) "pct" 365)
    as [df (H1 & H2 & H3 & _)].
  - simpl. lia.
  - exists df. repeat split; assumption.
Defined.

(** ** The streak counter *)

Section Streak.

Variable positive : bool.
Let p := cond_of positive.

Lemma run_from_le_longest (l : list F64.t) :
  (run_from p l <= longest_run_spec p l)%nat.
Proof. destruct l; simpl; lia. Qed.

(** The loop, started in any state [(best, current)] with
    [0 <= current <= best]. *)
Lemma consecutive_loop (l : list F64.t) :
  forall best current,
    0 <= current <= best ->
    fst (fold_left (consecutive_step positive) l (best, current))
    = Z.max best
        (Z.max (current + Z.of_nat (run_from p l))
               (Z.of_nat (longest_run_spec p l))).
Proof.
  induction l as [| x l IH]; intros best current Hinv.
  - simpl. lia.
  - cbn [fold_left consecutive_step run_from longest_run_spec].
    pose proof (run_from_le_longest l) as Hle.
    fold p. destruct (p x).
    + rewrite IH by lia. lia.
    + rewrite IH by lia. lia.
Qed.

Lemma calc_consecutive_spec (l : list F64.t) :
  _calc_consecutive l positive = Z.of_nat (longest_run_spec p l).
Proof.
  unfold _calc_consecutive. rewrite consecutive_loop by lia.
  pose proof (run_from_le_longest l). lia.
Qed.

(** A run of matching values at the head is counted by [run_from]. *)
Lemma run_from_app_all (run post : list F64.t) :
  forallb p run = true -> (length run <= run_from p (run ++ post))%nat.
Proof.
  induction run as [| x run IH]; simpl; intros H; [lia |].
  apply andb_true_iff in H as [Hx Hrun].
  rewrite Hx. specialize (IH Hrun). lia.
Qed.

Lemma longest_run_app_r (pre l : list F64.t) :
  (longest_run_spec p l <= longest_run_spec p (pre ++ l))%nat.
Proof. induction pre as [| a pre IH]; simpl; lia. Qed.

Lemma longest_run_upper (pre run post : list F64.t) :
  forallb p run = true ->
  (length run <= longest_run_spec p (pre ++ run ++ post))%nat.
Proof.
  intros H.
  pose proof (run_from_app_all run post H).
  pose proof (run_from_le_longest (run ++ post)).
  pose proof (longest_run_app_r pre (run ++ post)).
  lia.
Qed.

(** [run_from] is the length of a matching segment at the head. *)
Lemma run_from_segment (l : list F64.t) :
  exists run post,
    l = run ++ post /\ forallb p run = true /\ length run = run_from p l.
Proof.
  induction l as [| x l (run & post & Hl & Hall & Hlen)].
  - exists [], []. repeat split.
  - simpl. destruct (p x) eqn:Hx.
    + exists (x :: run), post. simpl. rewrite Hx, Hall, Hlen, <- Hl.
      repeat split.
    + exists [], (x :: l). repeat split.
Qed.

Lemma longest_run_attained (l : list F64.t) :
  exists pre run post,
    l = pre ++ run ++ post /\ forallb p run = true
    /\ length run = longest_run_spec p l.
Proof.
  induction l as [| x l (pre & run & post & Hl & Hall & Hlen)].
  - exists [], [], []. repeat split.
  - cbn [longest_run_spec].
    destruct (Nat.max_spec (run_from p (x :: l)) (longest_run_spec p l))
      as [[_ ->] | [_ ->]].
    + exists (x :: pre), run, post. simpl. rewrite <- Hl. repeat split; assumption.
    + destruct (run_from_segment (x :: l)) as (r & q & Hr & Hall' & Hlen').
      exists [], r, q. repeat split; assumption.
Qed.

Lemma run_from_stops (pre post : list F64.t) (x : F64.t) :
  p x = false -> run_from p (pre ++ x :: post) = run_from p pre.
Proof.
  intros Hx. induction pre as [| a pre IH]; simpl.
  - rewrite Hx. reflexivity.
  - rewrite IH. reflexivity.
Qed.

Lemma longest_run_split (pre post : list F64.t) (x : F64.t) :
  p x = false ->
  longest_run_spec p (pre ++ x :: post)
  = Nat.max (longest_run_spec p pre) (longest_run_spec p post).
Proof.
  intros Hx. induction pre as [| a pre IH].
  - simpl. rewrite Hx. simpl. reflexivity.
  - rewrite <- app_comm_cons. cbn [longest_run_spec].
    rewrite IH. rewrite app_comm_cons, run_from_stops by assumption. lia.
Qed.

End Streak.

(** The test of the loop is the sign test of the specification. *)
Lemma cond_of_sign (positive : bool) (x : F64.t) :
  cond_of positive x = sign_matches_spec positive x.
Proof. destruct positive, x as [[] | [] | | [] m e]; reflexivity. Qed.

Lemma run_from_ext (p q : F64.t -> bool) (l : list F64.t) :
  (forall x, p x = q x) -> run_from p l = run_from q l.
Proof.
  intros H. induction l as [| x l IH]; [reflexivity |].
  simpl. rewrite H, IH. reflexivity.
Qed.

Lemma longest_run_ext (p q : F64.t -> bool) (l : list F64.t) :
  (forall x, p x = q x) -> longest_run_spec p l = longest_run_spec q l.
Proof.
  intros H. induction l as [| x l IH]; [reflexivity |].
  cbn [longest_run_spec]. rewrite IH, (run_from_ext p q (x :: l) H). reflexivity.
Qed.

Lemma forallb_sign (positive : bool) (l : list F64.t) :
  forallb (cond_of positive) l = forallb (sign_matches_spec positive) l.
Proof.
  induction l as [| x l IH]; [reflexivity |].
  simpl. rewrite cond_of_sign, IH. reflexivity.
Qed.

(** C8.  On every finite sequence, zeros and NaN included,
    [_calc_consecutive] returns the length of the longest run of
    consecutive values of the requested sign, strictly above zero when
    [positive] and strictly below zero otherwise: it is the length of a
    segment of such values, no segment of such values is longer, it is
    a non-negative integer and 0 on the empty sequence.  Being strictly
    above (below) zero is what the IEEE comparison with zero says; a
    zero of either sign and NaN are neither, and a value that is not of
    the requested sign cuts the sequence in two parts that are counted
    apart.  On [[1, 1, -1]] the winning streak is 2 and the losing
    streak is 1. *)
Theorem calc_consecutive_longest_run (series : list F64.t) (positive : bool) :
  let best := _calc_consecutive series positive in
  best = Z.of_nat (longest_run_spec (sign_matches_spec positive) series)
  /\ 0 <= best
  /\ _calc_consecutive [] positive = 0
  /\ (exists pre run post,
        series = pre ++ run ++ post
        /\ forallb (sign_matches_spec positive) run = true
        /\ best = Z.of_nat (length run))
  /\ (forall pre run post,
        series = pre ++ run ++ post ->
        forallb (sign_matches_spec positive) run = true ->
        Z.of_nat (length run) <= best)
  /\ (forall x,
        sign_matches_spec true x = true <-> SFcompare x F64.zero = Some Gt)
  /\ (forall x,
        sign_matches_spec false x = true <-> SFcompare x F64.zero = Some Lt)
  /\ (forall s, sign_matches_spec positive (S754_zero s) = false)
  /\ sign_matches_spec positive F64.nan = false
  /\ (forall pre x post,
        sign_matches_spec positive x = false ->
        _calc_consecutive (pre ++ x :: post) positive
        = Z.max (_calc_consecutive pre positive)
                (_calc_consecutive post positive))
  /\ _calc_consecutive (map fl [1; 1; -1]) true = 2
  /\ _calc_consecutive (map fl [1; 1; -1]) false = 1.
Proof.
  cbv zeta. rewrite calc_consecutive_spec.
  rewrite (longest_run_ext _ _ series (cond_of_sign positive)).
  split; [reflexivity |].
  split; [lia |].
  split; [reflexivity |].
  split.
  { destruct (longest_run_attained positive series)
      as (pre & run & post & Hs & Hall & Hlen).
    exists pre, run, post.
    rewrite <- (longest_run_ext _ _ series (cond_of_sign positive)), <- Hlen.
    rewrite <- forallb_sign. repeat split; assumption. }
  split.
  { intros pre run post -> Hall. rewrite <- forallb_sign in Hall.
    rewrite <- (longest_run_ext _ _ _ (cond_of_sign positive)).
    apply Nat2Z.inj_le, longest_run_upper, Hall. }
  split.
  { intros x. destruct x as [[] | [] | | [] m e]; cbn;
      split; intros H; try discriminate; reflexivity. }
  split.
  { intros x. destruct x as [[] | [] | | [] m e]; cbn;
      split; intros H; try discriminate; reflexivity. }
  split.
  { intros s. destruct positive, s; reflexivity. }
  split.
  { destruct positive; reflexivity. }
  split.
  { intros pre x post Hx. rewrite <- cond_of_sign in Hx.
    rewrite !calc_consecutive_spec, longest_run_split by assumption.
    lia. }
  split; vm_compute; reflexivity.
Qed.

(** ** The normal path *)

(** What a returned frame holds when there are at least two pnl values:
    the steps that can raise have all succeeded, and the cells are the
    values computed from the daily bars. *)
Lemma stat_ts_normal dates pnl tp idx target diy df :
  (1 < length pnl)%nat ->
  stat_ts dates pnl tp idx target diy = Ok df ->
  exists annual_coef n_trades trades drawdown,
    int_truediv diy tp = Ok annual_coef
    /\ float_of_int (np_count_nonzero pnl) = Ok n_trades
    /\ int_of_float (F64.mul n_trades annual_coef) = Ok trades
    /\ length dates = length pnl
    /\ drawdown_of (pnl_nz_of (daily_bars (combine dates pnl))) = Ok drawdown
    /\ let df_pnl := daily_bars (combine dates pnl) in
       let k := scale_of target in
       index df = [idx]
       /\ loc df idx "sharpe" = Some (Some (PyFloat (sharpe_of df_pnl diy)))
       /\ loc df idx "Kelly, %"
          = Some (Some (kelly_of (win_pct_of df_pnl) (profit_factor_of df_pnl)))
       /\ loc df idx "trades/year" = Some (Some (PyInt trades))
       /\ loc df idx (String.append "return/year, " (postfix_of target))
          = Some (Some (PyFloat
               (np_round (F64.mul (F64.mul (np_sum pnl) annual_coef) (F64.of_Z k)) 2)))
       /\ loc df idx (String.append "return/trade, " (postfix_of target))
          = Some (Some
               (if np_count_nonzero pnl =? 0 then PyInt 0
                else PyFloat (np_round
                       (F64.mul (F64.div (np_sum pnl)
                                         (F64.of_Z (np_count_nonzero pnl)))
                                (F64.of_Z k)) 3)))
       /\ loc df idx "PF" = Some (Some (PyFloat (np_round (profit_factor_of df_pnl) 2)))
       /\ loc df idx (String.append "Max DD, " (postfix_of target))
          = Some (Some (PyFloat (np_round (F64.mul drawdown (F64.of_Z k)) 2)))
       /\ loc df idx "Max wins in row"
          = Some (Some (PyInt (_calc_consecutive (pnl_nz_of df_pnl) true)))
       /\ loc df idx "Max losses in row"
          = Some (Some (PyInt (_calc_consecutive (pnl_nz_of df_pnl) false))).
Proof.
  intros Hlen. unfold stat_ts.
  apply Nat.leb_gt in Hlen. rewrite Hlen.
  destruct (int_truediv diy tp) as [annual_coef |] eqn:Hc;
    [cbn [bind] | discriminate].
  destruct (float_of_int _) as [n_trades |] eqn:Hn; [cbn [bind] | discriminate].
  destruct (int_of_float _) as [trades |] eqn:Ht; [cbn [bind] | discriminate].
  unfold make_frame.
  destruct (length dates =? length pnl)%nat eqn:Hd; [cbn [bind] | discriminate].
  destruct (annualised_ratio _ _ _) as [sharpe |] eqn:Hsh;
    [cbn [bind] | discriminate].
  apply sharpe_ok in Hsh. subst sharpe.
  destruct (annualised_ratio _ _ _) as [sortino |]; [cbn [bind] | discriminate].
  destruct (drawdown_of _) as [drawdown |] eqn:Hdd; [cbn [bind] | discriminate].
  intros H. injection H as <-.
  exists annual_coef, n_trades, trades, drawdown.
  apply Nat.eqb_eq in Hd.
  repeat (split; [first [reflexivity | assumption] |]).
  cbv zeta. unfold loc.
  cbn [index columns DataFrame_of_scalars position map fst snd].
  rewrite row_id_eqb_refl.
  repeat split; try (cbn; rewrite ?String.eqb_refl; reflexivity).
  cbn. rewrite ?String.eqb_refl. destruct (np_count_nonzero pnl =? 0); reflexivity.
Qed.


(** With two values or more and every daily bar zero, the call raises. *)
Lemma stat_ts_raises_without_nonzero_bar dates pnl tp idx target diy :
  (1 < length pnl)%nat ->
  pnl_nz_of (daily_bars (combine dates pnl)) = [] ->
  exists e, stat_ts dates pnl tp idx target diy = Raise e.
Proof.
  intros Hlen Hnz. unfold stat_ts.
  apply Nat.leb_gt in Hlen. rewrite Hlen.
  destruct (int_truediv diy tp); [cbn [bind] | eexists; reflexivity].
  destruct (float_of_int _); [cbn [bind] | eexists; reflexivity].
  destruct (int_of_float _); [cbn [bind] | eexists; reflexivity].
  unfold make_frame.
  destruct (length dates =? length pnl)%nat; [cbn [bind] | eexists; reflexivity].
  destruct (annualised_ratio _ _ _); [cbn [bind] | eexists; reflexivity].
  destruct (annualised_ratio _ _ _); [cbn [bind] | eexists; reflexivity].
  rewrite Hnz. cbn. eexists; reflexivity.
Qed.

(** ** Scenarios *)

(** C6.  [pnl = [1, -1, 1, 1, -1]] on the five business days Monday
    2024-01-01 to Friday 2024-01-05, with a test period of 5 days, 365 days
    per year and nominal units: the call returns a frame with
    [trades/year = 365], [return/year = 73.0] and [return/trade = 0.2].
    It also returns a frame for five business days around a weekend,
    and the three cells do not depend on the dates: they are the same
    in every frame the call returns for these pnl values. *)
Theorem five_business_days_scenario :
  let pnl := map fl [1; -1; 1; 1; -1] in
  let week := map day [monday; monday + 1; monday + 2; monday + 3; monday + 4] in
  (exists df,
      stat_ts week pnl 5 (IdInt 0) "nom" 365 = Ok df
      /\ loc df (IdInt 0) "trades/year" = Some (Some (PyInt 365))
      /\ loc df (IdInt 0) "return/year, pp" = Some (Some (PyFloat (fl 73)))
      /\ loc df (IdInt 0) "return/trade, pp" = Some (Some (PyFloat (decimal 2 1))))
  /\ (exists df,
        stat_ts (map day [monday + 3; monday + 4; monday + 7; monday + 8; monday + 9])
                pnl 5 (IdInt 0) "nom" 365 = Ok df)
  /\ (forall dates idx df,
        stat_ts dates pnl 5 idx "nom" 365 = Ok df ->
        loc df idx "trades/year" = Some (Some (PyInt 365))
        /\ loc df idx "return/year, pp" = Some (Some (PyFloat (fl 73)))
        /\ loc df idx "return/trade, pp" = Some (Some (PyFloat (decimal 2 1)))).
Proof.
  cbv zeta. split; [| split].
  - eexists. split; [vm_compute; reflexivity |].
    repeat split; vm_compute; reflexivity.
  - eexists. vm_compute. reflexivity.
  - intros dates idx df H.
    apply stat_ts_normal in H; [| simpl; lia].
    destruct H as (c & n & t & dd & Hc & Hn & Ht & _ & _ & H).
    cbv zeta in H.
    destruct H as (_ & _ & _ & Htr & Hry & Hrt & _).
    vm_compute in Hc. injection Hc as <-.
    vm_compute in Hn. injection Hn as <-.
    vm_compute in Ht. injection Ht as <-.
    change (String.append "return/year, " (postfix_of "nom"))
      with "return/year, pp" in Hry.
    change (String.append "return/trade, " (postfix_of "nom"))
      with "return/trade, pp" in Hrt.
    rewrite Htr, Hry, Hrt.
    repeat split; vm_compute; reflexivity.
Qed.

(** ** Facts of binary64 arithmetic *)

Lemma trades_per_year_ok pnl tp diy trades :
  trades_per_year pnl tp diy = Ok trades ->
  exists annual_coef n_trades,
    int_truediv diy tp = Ok annual_coef
    /\ float_of_int (np_count_nonzero pnl) = Ok n_trades
    /\ int_of_float (F64.mul n_trades annual_coef) = Ok trades.
Proof.
  unfold trades_per_year.
  destruct (int_truediv diy tp) as [c |]; [cbn [bind] | discriminate].
  destruct (float_of_int _) as [n |]; [cbn [bind] | discriminate].
  intros H. exists c, n. repeat split. exact H.
Qed.





(** A positive integer below [2^53] converts to a positive finite
    float: its bits are shifted to the left to fill the 53 bits of the
    mantissa and nothing is rounded. *)
Lemma digits2_iter_xO (p n : positive) :
  digits2_pos (Pos.iter xO p n) = (digits2_pos p + n)%positive.
Proof.
  induction n as [| n IH] using Pos.peano_ind.
  - simpl. lia.
  - rewrite Pos.iter_succ. simpl. rewrite IH. lia.
Qed.

Lemma digits2_lower (p : positive) :
  2 ^ (Z.pos (digits2_pos p) - 1) <= Z.pos p.
Proof.
  assert (step : forall d : positive, Z.pos (Pos.succ d) - 1 = Z.succ (Z.pos d - 1))
    by (intros d; lia).
  induction p as [q IH | q IH |]; simpl digits2_pos.
  - rewrite step, Z.pow_succ_r by lia. lia.
  - rewrite step, Z.pow_succ_r by lia. lia.
  - simpl. lia.
Qed.

Lemma digits2_small (p : positive) :
  Z.pos p < 2 ^ 53 -> Z.pos (digits2_pos p) <= 53.
Proof.
  intros H. pose proof (digits2_lower p) as L.
  destruct (Z_le_gt_dec (Z.pos (digits2_pos p)) 53) as [| G]; [assumption |].
  exfalso.
  assert (2 ^ 53 <= 2 ^ (Z.pos (digits2_pos p) - 1))
    by (apply Z.pow_le_mono_r; lia).
  lia.
Qed.

Lemma of_Z_small (p : positive) :
  Z.pos p < 2 ^ 53 -> exists m e, F64.of_Z (Z.pos p) = S754_finite false m e.
Proof.
  intros H. apply digits2_small in H.
  unfold F64.of_Z, binary_normalize, binary_round.
  set (d := digits2_pos p) in *.
  assert (Hf : fexp F64.prec F64.emax (Z.pos d + 0) = Z.pos d - 53).
  { unfold fexp, emin, F64.prec, F64.emax. lia. }
  rewrite Hf. unfold shl_align.
  destruct (Z.pos d - 53 - 0) as [| k | k] eqn:Hk; try lia.
  - (* 53 bits already *)
    unfold binary_round_aux, shr_fexp.
    cbn [Zdigits2]. fold d.
    replace (fexp F64.prec F64.emax (Z.pos d + 0) - 0) with 0 by lia.
    cbn [shr shr_record_of_loc shr_m loc_of_shr_record round_nearest_even
         Zdigits2].
    fold d. replace (fexp F64.prec F64.emax (Z.pos d + 0) - 0) with 0 by lia.
    cbn. eexists _, _. reflexivity.
  - (* fewer: [k] zero bits are appended *)
    unfold binary_round_aux, shr_fexp.
    cbn [Zdigits2]. rewrite digits2_iter_xO. fold d.
    assert (Hf2 : fexp F64.prec F64.emax (Z.pos (d + k) + (Z.pos d - 53))
                  - (Z.pos d - 53) = 0).
    { unfold fexp, emin, F64.prec, F64.emax. lia. }
    rewrite Hf2.
    cbn [shr shr_record_of_loc shr_m loc_of_shr_record round_nearest_even
         Zdigits2].
    rewrite digits2_iter_xO. fold d. rewrite Hf2.
    cbn [shr shr_m].
    assert (Hle : (Z.pos d - 53 <=? F64.emax - F64.prec) = true).
    { apply Z.leb_le. unfold F64.emax, F64.prec. lia. }
    rewrite Hle. eexists _, _. reflexivity.
Qed.

(** ** Profit factor and Kelly percentage without a losing day *)



Section NoLosingDay.

Variable df_pnl : list F64.t.
Hypothesis nonneg : Forall (fun x => F64.geb x F64.zero = true) df_pnl.




Hypothesis winning : Exists (fun x => is_pos x = true) df_pnl.
Hypothesis small : Z.of_nat (length df_pnl) < 2 ^ 53.




End NoLosingDay.

(** ** Drawdown *)

(** Rounding a non-negative mantissa never gives NaN, so the difference
    of two finite values is not NaN. *)
Lemma shr_1_nonneg (mrs : shr_record) : 0 <= shr_m mrs -> 0 <= shr_m (shr_1 mrs).
Proof.
  destruct mrs as [m r s]. destruct m as [| p | p]; simpl; intros H;
    try lia; destruct p; simpl; lia.
Qed.

Lemma iter_shr_1_nonneg (n : positive) :
  forall mrs, 0 <= shr_m mrs -> 0 <= shr_m (iter_pos shr_1 n mrs).
Proof.
  induction n as [n IH | n IH |]; intros mrs H; simpl.
  - apply IH, IH, shr_1_nonneg, H.
  - apply IH, IH, H.
  - apply shr_1_nonneg, H.
Qed.

Lemma shr_fexp_nonneg (m e : Z) (l : location) :
  0 <= m -> 0 <= shr_m (fst (shr_fexp F64.prec F64.emax m e l)).
Proof.
  intros H. unfold shr_fexp, shr.
  assert (H0 : 0 <= shr_m (shr_record_of_loc m l))
    by (destruct l as [| []]; exact H).
  destruct (fexp _ _ _ - e); simpl; try assumption.
  apply iter_shr_1_nonneg, H0.
Qed.

Lemma round_nearest_even_nonneg (m : Z) (l : location) :
  0 <= m -> 0 <= round_nearest_even m l.
Proof.
  intros H. destruct l as [| []]; simpl; try lia.
  destruct (Z.even m); lia.
Qed.

Lemma binary_round_aux_not_nan (s : bool) (m e : Z) (l : location) :
  0 <= m -> F64.is_nan (binary_round_aux F64.prec F64.emax s m e l) = false.
Proof.
  intros H. unfold binary_round_aux.
  pose proof (shr_fexp_nonneg m e l H) as H1.
  destruct (shr_fexp F64.prec F64.emax m e l) as [mrs' e'].
  simpl fst in H1.
  pose proof (shr_fexp_nonneg _ e' loc_Exact
                (round_nearest_even_nonneg _ (loc_of_shr_record mrs') H1)) as H2.
  destruct (shr_fexp F64.prec F64.emax _ e' loc_Exact) as [mrs'' e''].
  simpl fst in H2.
  destruct (shr_m mrs'') as [| p | p]; [reflexivity | | lia].
  destruct (e'' <=? _); reflexivity.
Qed.

Lemma binary_normalize_not_nan (m e : Z) :
  F64.is_nan (binary_normalize F64.prec F64.emax m e false) = false.
Proof.
  destruct m as [| p | p]; [reflexivity | |]; simpl; unfold binary_round;
    destruct (shl_align _ _ _); apply binary_round_aux_not_nan; lia.
Qed.

Lemma sub_finite_not_nan (x y : F64.t) :
  F64.is_finite x = true -> F64.is_finite y = true ->
  F64.is_nan (F64.sub x y) = false.
Proof.
  destruct x as [[] | | | sx mx ex], y as [[] | | | sy my ey];
    try discriminate; intros _ _; try reflexivity.
  apply binary_normalize_not_nan.
Qed.

Lemma sub_same (x : F64.t) :
  F64.is_finite x = true -> F64.sub x x = F64.zero.
Proof.
  destruct x as [[] | | | s m e]; try discriminate; intros _; try reflexivity.
  unfold F64.sub, SFsub. rewrite Z.sub_diag. reflexivity.
Qed.

Lemma minimum_nonpos (acc y : F64.t) :
  F64.leb acc F64.zero = true -> F64.is_nan y = false ->
  F64.leb (np_minimum acc y) F64.zero = true.
Proof.
  intros Ha Hy. unfold np_minimum.
  destruct (F64.leb acc y || F64.is_nan acc) eqn:E; [exact Ha |].
  apply orb_false_iff in E as [E _].
  destruct acc as [[] | [] | | [] ma ea]; try discriminate;
    destruct y as [[] | [] | | [] my ey]; try discriminate; try reflexivity.
Qed.

Lemma fold_minimum_nonpos (l : list F64.t) :
  forall acc,
    F64.leb acc F64.zero = true ->
    Forall (fun y => F64.is_nan y = false) l ->
    F64.leb (fold_left np_minimum l acc) F64.zero = true.
Proof.
  induction l as [| y l IH]; intros acc Hacc Hl; simpl; [exact Hacc |].
  inversion Hl as [| ? ? Hy Hl']; subst.
  apply IH; [apply minimum_nonpos; assumption | assumption].
Qed.

Lemma maximum_finite (x y : F64.t) :
  F64.is_finite x = true -> F64.is_finite y = true ->
  F64.is_finite (np_maximum x y) = true.
Proof. intros Hx Hy. unfold np_maximum. destruct (_ || _); assumption. Qed.

Lemma running_maximum_finite (l : list F64.t) :
  forall acc,
    F64.is_finite acc = true ->
    Forall (fun x => F64.is_finite x = true) l ->
    Forall (fun x => F64.is_finite x = true) (accumulate np_maximum acc l).
Proof.
  induction l as [| y l IH]; intros acc Hacc Hl; simpl; [constructor |].
  inversion Hl as [| ? ? Hy Hl']; subst.
  pose proof (maximum_finite acc y Hacc Hy) as Hm.
  constructor; [exact Hm | apply IH; assumption].
Qed.

Lemma subtract_not_nan (a : list F64.t) :
  forall b,
    Forall (fun x => F64.is_finite x = true) a ->
    Forall (fun x => F64.is_finite x = true) b ->
    Forall (fun d => F64.is_nan d = false) (np_subtract a b).
Proof.
  unfold np_subtract.
  induction a as [| x a IH]; intros b Ha Hb; [constructor |].
  destruct b as [| y b]; [constructor |].
  inversion Ha; inversion Hb; subst. simpl.
  constructor; [apply sub_finite_not_nan; assumption | apply IH; assumption].
Qed.

(** On a non-empty sequence whose running sums are all finite, the
    drawdown is computed and is [<= 0]. *)
Lemma drawdown_nonpos (pnl_nz : list F64.t) :
  pnl_nz <> [] ->
  Forall (fun x => F64.is_finite x = true) (np_cumsum pnl_nz) ->
  exists drawdown,
    drawdown_of pnl_nz = Ok drawdown /\ F64.leb drawdown F64.zero = true.
Proof.
  intros Hne Hfin. unfold drawdown_of.
  destruct pnl_nz as [| x rest]; [contradiction |].
  cbn [np_cumsum np_maximum_accumulate] in *.
  inversion Hfin as [| ? ? Hx Hrest]; subst.
  unfold np_subtract. cbn [combine map fst snd np_min].
  eexists. split; [reflexivity |].
  apply fold_minimum_nonpos.
  - rewrite sub_same by exact Hx. reflexivity.
  - apply subtract_not_nan; [exact Hrest |].
    apply running_maximum_finite; assumption.
Qed.

(** ** The call on daily bars that are all zero *)

Lemma pos_is_nonzero (x : F64.t) : is_pos x = true -> is_nonzero x = true.
Proof. destruct x as [[] | [] | | [] m e]; cbn; intros H; congruence. Qed.

Lemma no_nonzero_bar (df_pnl : list F64.t) :
  np_count_nonzero df_pnl = 0 ->
  pnl_nz_of df_pnl = [] /\ filter is_pos df_pnl = [].
Proof.
  unfold np_count_nonzero, pnl_nz_of.
  change (fun x => F64.neb x F64.zero) with is_nonzero.
  intros H.
  assert (Hnz : filter is_nonzero df_pnl = [])
    by (destruct (filter is_nonzero df_pnl); [reflexivity | simpl in H; lia]).
  split; [exact Hnz |].
  induction df_pnl as [| x l IH]; [reflexivity |].
  simpl in *. destruct (is_pos x) eqn:Hx.
  - rewrite (pos_is_nonzero x Hx) in Hnz. discriminate.
  - destruct (is_nonzero x); [discriminate |]. apply IH; [lia | exact Hnz].
Qed.

(** C2.  The guards on the standard deviations, on the negative sum, on
    the profit factor and on the count of non-zero pnl values give
    [+inf] or [0] as the claim says.  The count of non-zero daily bars
    has no guard: when it is zero, with more than one pnl value, the win
    ratio is [0 / 0 = NaN] and the call returns no frame, since [np.min]
    of the empty array of drawdowns raises [ValueError].  So it is for
    [pnl = [0, 0]] on two consecutive days. *)
Theorem zero_bars_raise_value_error :
  (forall df_pnl diy,
      F64.eqb (pd_std0 df_pnl) F64.zero = true ->
      sharpe_of df_pnl diy = F64.inf)
  /\ (forall df_pnl diy,
        F64.eqb (pd_std0 (pnl_negative df_pnl)) F64.zero = true ->
        sortino_of df_pnl diy = F64.inf)
  /\ (forall df_pnl,
        F64.eqb (pd_sum (filter is_neg df_pnl)) F64.zero = true ->
        profit_factor_of df_pnl = F64.inf)
  /\ (forall win_pct profit_factor,
        F64.eqb profit_factor F64.zero = true ->
        kelly_of win_pct profit_factor = PyInt 0)
  /\ (forall dates pnl tp idx target diy,
        (1 < length pnl)%nat ->
        np_count_nonzero (daily_bars (combine dates pnl)) = 0 ->
        win_pct_of (daily_bars (combine dates pnl)) = F64.nan
        /\ exists e, stat_ts dates pnl tp idx target diy = Raise e)
  /\ (let dates := map day [0; 1] in
      let pnl := map fl [0; 0] in
      let df_pnl := daily_bars (combine dates pnl) in
      (1 < length pnl)%nat
      /\ df_pnl = [F64.zero; F64.zero]
      /\ np_count_nonzero df_pnl = 0
      /\ win_pct_of df_pnl = F64.nan
      /\ drawdown_of (pnl_nz_of df_pnl) = Raise ValueError
      /\ stat_ts dates pnl 2 (IdInt 0) "pct" 365 = Raise ValueError).
Proof.
  split.
  { intros df_pnl diy H. unfold sharpe_of, F64.truthy, F64.neb.
    rewrite H. reflexivity. }
  split.
  { intros df_pnl diy H. unfold sortino_of, F64.truthy, F64.neb.
    rewrite H. reflexivity. }
  split.
  { intros df_pnl H. unfold profit_factor_of, F64.truthy, F64.neb.
    rewrite H. reflexivity. }
  split.
  { intros w pf H. unfold kelly_of, F64.truthy, F64.neb.
    rewrite H. reflexivity. }
  split.
  { intros dates pnl tp idx target diy Hlen Hcount.
    destruct (no_nonzero_bar _ Hcount) as [Hnz Hpos].
    split.
    - unfold win_pct_of. rewrite Hpos, Hcount. reflexivity.
    - apply stat_ts_raises_without_nonzero_bar; assumption. }
  cbv zeta. split; [simpl; lia |].
  repeat split; vm_compute; reflexivity.
Qed.

(** C4.  In a returned frame the [sharpe] cell is the rounded ratio, and
    [+inf] when the standard deviation of the daily bars is zero; but
    [pnl = [1, -1]] at two times of one day gives a single daily bar
    [0.0], standard deviation exactly zero and a Sharpe ratio of [+inf],
    and the call raises [ValueError] instead of returning it. *)
Theorem sharpe_inf_lost_on_zero_bars :
  (forall dates pnl tp idx target diy df,
      (1 < length pnl)%nat ->
      stat_ts dates pnl tp idx target diy = Ok df ->
      let df_pnl := daily_bars (combine dates pnl) in
      loc df idx "sharpe"
      = Some (Some (PyFloat
          (if F64.eqb (pd_std0 df_pnl) F64.zero then F64.inf
           else np_round
                  (F64.mul (F64.div (pd_mean df_pnl) (pd_std0 df_pnl))
                           (F64.sqrt (F64.of_Z diy))) 3))))
  /\ (let dates := [day 0; day 0 + 3600000000000] in
      let pnl := map fl [1; -1] in
      let df_pnl := daily_bars (combine dates pnl) in
      (1 < length pnl)%nat
      /\ df_pnl = [F64.zero]
      /\ pd_std0 df_pnl = F64.zero
      /\ sharpe_of df_pnl 365 = F64.inf
      /\ stat_ts dates pnl 2 (IdInt 0) "pct" 365 = Raise ValueError).
Proof.
  split.
  - intros dates pnl tp idx target diy df Hlen H.
    destruct (stat_ts_normal _ _ _ _ _ _ _ Hlen H)
      as (c & n & t & dd & _ & _ & _ & _ & _ & Hcells).
    cbv zeta in Hcells. destruct Hcells as (_ & -> & _).
    cbv zeta. unfold sharpe_of, F64.truthy, F64.neb, np_sqrt_int.
    destruct (F64.eqb _ _); reflexivity.
  - cbv zeta. split; [simpl; lia |].
    repeat split; vm_compute; reflexivity.
Qed.

(** C7.  With a non-zero daily bar and finite running sums the drawdown
    is [<= 0], and so it is in every returned frame; but
    [pnl = [0, 0, 0]] on three days leaves no non-zero bar, the minimum
    is taken over an empty array and the call raises [ValueError]: there
    is no drawdown value. *)
Theorem drawdown_missing_on_zero_bars :
  (forall dates pnl tp idx target diy df,
      (1 < length pnl)%nat ->
      stat_ts dates pnl tp idx target diy = Ok df ->
      let pnl_nz := pnl_nz_of (daily_bars (combine dates pnl)) in
      Forall (fun x => F64.is_finite x = true) (np_cumsum pnl_nz) ->
      exists drawdown,
        drawdown_of pnl_nz = Ok drawdown
        /\ F64.leb drawdown F64.zero = true
        /\ loc df idx (String.append "Max DD, " (postfix_of target))
           = Some (Some (PyFloat
               (np_round (F64.mul drawdown (F64.of_Z (scale_of target))) 2))))
  /\ (let dates := map day [0; 1; 2] in
      let pnl := map fl [0; 0; 0] in
      (1 < length pnl)%nat
      /\ pnl_nz_of (daily_bars (combine dates pnl)) = []
      /\ drawdown_of (pnl_nz_of (daily_bars (combine dates pnl))) = Raise ValueError
      /\ stat_ts dates pnl 3 (IdInt 0) "nom" 365 = Raise ValueError).
Proof.
  split.
  - intros dates pnl tp idx target diy df Hlen H pnl_nz Hfin.
    destruct (stat_ts_normal _ _ _ _ _ _ _ Hlen H)
      as (c & n & t & dd & _ & _ & _ & _ & Hdd & Hcells).
    cbv zeta in Hcells.
    destruct Hcells as (_ & _ & _ & _ & _ & _ & _ & Hmax & _).
    fold pnl_nz in Hdd.
    destruct (drawdown_nonpos pnl_nz) as (d & Hd & Hle).
    + intros Hnil. rewrite Hnil in Hdd. discriminate.
    + exact Hfin.
    + rewrite Hd in Hdd. injection Hdd as <-.
      exists d. repeat split; assumption.
  - cbv zeta. split; [simpl; lia |].
    repeat split; vm_compute; reflexivity.
Qed.

(** ** Daily resampling *)

Lemma insert_by_time_perm (r : Z * F64.t) (l : list (Z * F64.t)) :
  Permutation (insert_by_time r l) (r :: l).
Proof.
  induction l as [| r' l IH]; simpl; [reflexivity |].
  destruct (fst r <=? fst r'); [reflexivity |].
  rewrite IH. apply perm_swap.
Qed.

Lemma sort_by_time_perm (rows : list (Z * F64.t)) :
  Permutation (sort_by_time rows) rows.
Proof.
  induction rows as [| r rows IH]; simpl; [reflexivity |].
  rewrite insert_by_time_perm. constructor. exact IH.
Qed.

Lemma insert_by_time_sorted (r : Z * F64.t) (l : list (Z * F64.t)) :
  StronglySorted by_time l -> StronglySorted by_time (insert_by_time r l).
Proof.
  induction 1 as [| r' l Hl IH Hr']; simpl.
  - repeat constructor.
  - destruct (fst r <=? fst r') eqn:E.
    + apply Z.leb_le in E. constructor; [constructor; assumption |].
      constructor; [exact E |].
      eapply Forall_impl; [| exact Hr'].
      unfold by_time. intros a Ha. lia.
    + apply Z.leb_gt in E. constructor; [exact IH |].
      eapply Permutation_Forall; [symmetry; apply insert_by_time_perm |].
      constructor; [unfold by_time; lia | exact Hr'].
Qed.

Lemma sort_by_time_sorted (rows : list (Z * F64.t)) :
  StronglySorted by_time (sort_by_time rows).
Proof.
  induction rows as [| r rows IH]; simpl; [constructor |].
  apply insert_by_time_sorted, IH.
Qed.

Lemma last_in (A : Type) (l : list A) (x d : A) : In (last (x :: l) d) (x :: l).
Proof.
  revert x. induction l as [| y l IH]; intros x; [left; reflexivity |].
  right. apply IH.
Qed.

Lemma sorted_last_max (l : list (Z * F64.t)) :
  StronglySorted by_time l ->
  forall d r, In r l -> fst r <= fst (last l d).
Proof.
  induction 1 as [| r0 l Hl IH Hr0]; intros d r Hin; [destruct Hin |].
  destruct l as [| r1 l]; [destruct Hin as [<- | []]; simpl; lia |].
  change (last (r0 :: r1 :: l) d) with (last (r1 :: l) d).
  destruct Hin as [<- | Hin]; [| apply IH, Hin].
  rewrite Forall_forall in Hr0. apply Hr0, last_in.
Qed.

Lemma day_of_mono (a b : Z) : a <= b -> day_of a <= day_of b.
Proof. intros H. apply Z.div_le_mono; [reflexivity | exact H]. Qed.

Lemma in_day_range (first last d : Z) :
  In d (day_range first last) <-> first <= d <= last.
Proof.
  unfold day_range. rewrite in_map_iff. split.
  - intros (i & <- & Hi). apply in_seq in Hi. lia.
  - intros H. exists (Z.to_nat (d - first)). split; [lia |].
    apply in_seq. lia.
Qed.

Lemma day_steps_increasing (first : Z) (n : nat) :
  forall s, StronglySorted Z.lt (map (fun i => first + Z.of_nat i) (seq s n)).
Proof.
  induction n as [| n IH]; intros s; simpl; constructor; [apply IH |].
  apply Forall_forall. intros d Hd.
  apply in_map_iff in Hd as (i & <- & Hi). apply in_seq in Hi. lia.
Qed.

Lemma filter_increasing (f : Z -> bool) (l : list Z) :
  StronglySorted Z.lt l -> StronglySorted Z.lt (filter f l).
Proof.
  induction 1 as [| x l Hl IH Hx]; simpl; [constructor |].
  destruct (f x); [| exact IH].
  constructor; [exact IH |].
  rewrite Forall_forall in *. intros y Hy.
  apply filter_In in Hy as [Hy _]. apply Hx, Hy.
Qed.

Lemma in_insert_key (d x : Z) (keys : list Z) :
  In x (insert_key d keys) <-> x = d \/ In x keys.
Proof.
  induction keys as [| k keys IH]; simpl; [intuition |].
  destruct (d <? k); [simpl; intuition |].
  destruct (d =? k) eqn:E; [apply Z.eqb_eq in E; subst; simpl; intuition |].
  simpl. rewrite IH. intuition.
Qed.

Lemma insert_key_increasing (d : Z) (keys : list Z) :
  StronglySorted Z.lt keys -> StronglySorted Z.lt (insert_key d keys).
Proof.
  induction 1 as [| k keys Hk IH Hall]; simpl; [repeat constructor |].
  destruct (d <? k) eqn:E1.
  - apply Z.ltb_lt in E1. constructor; [constructor; assumption |].
    constructor; [exact E1 |].
    eapply Forall_impl; [| exact Hall]. intros a Ha. simpl in Ha. lia.
  - destruct (d =? k) eqn:E2; [constructor; assumption |].
    apply Z.ltb_ge in E1. apply Z.eqb_neq in E2.
    constructor; [exact IH |].
    rewrite Forall_forall in *. intros y Hy.
    apply in_insert_key in Hy as [-> | Hy]; [lia | apply Hall, Hy].
Qed.

Lemma day_keys_increasing (rows : list (Z * F64.t)) :
  StronglySorted Z.lt (day_keys_spec rows).
Proof.
  unfold day_keys_spec. induction rows as [| r rows IH]; simpl; [constructor |].
  apply insert_key_increasing, IH.
Qed.

Lemma in_day_keys (rows : list (Z * F64.t)) (d : Z) :
  In d (day_keys_spec rows) <-> on_day rows d = true.
Proof.
  unfold day_keys_spec, on_day.
  induction rows as [| r rows IH]; simpl; [intuition discriminate |].
  rewrite in_insert_key, IH, orb_true_iff, Z.eqb_eq. intuition.
Qed.

(** Two increasing lists with the same elements are equal. *)
Lemma increasing_ext (l1 : list Z) :
  forall l2,
    StronglySorted Z.lt l1 -> StronglySorted Z.lt l2 ->
    (forall x, In x l1 <-> In x l2) -> l1 = l2.
Proof.
  induction l1 as [| a l1 IH]; intros l2 H1 H2 Hin.
  - destruct l2 as [| b l2]; [reflexivity |].
    destruct (proj2 (Hin b)). left; reflexivity.
  - destruct l2 as [| b l2]; [destruct (proj1 (Hin a)); left; reflexivity |].
    inversion H1 as [| ? ? H1' Ha]; inversion H2 as [| ? ? H2' Hb]; subst.
    rewrite Forall_forall in Ha, Hb.
    assert (a = b) as <-.
    { destruct (proj1 (Hin a)) as [E | E]; [left; reflexivity | auto |].
      destruct (proj2 (Hin b)) as [E' | E']; [left; reflexivity | auto |].
      specialize (Ha _ E'). specialize (Hb _ E). lia. }
    f_equal. apply IH; try assumption.
    intros x. split; intros Hx.
    + destruct (proj1 (Hin x)) as [E | E]; [right; exact Hx | | exact E].
      specialize (Ha _ Hx). lia.
    + destruct (proj2 (Hin x)) as [E | E]; [right; exact Hx | | exact E].
      specialize (Hb _ Hx). lia.
Qed.

Lemma on_day_iff (rows : list (Z * F64.t)) (d : Z) :
  on_day rows d = true <-> exists r, In r rows /\ day_of (fst r) = d.
Proof.
  unfold on_day. rewrite existsb_exists.
  split; intros (r & Hin & H); exists r; split; try assumption;
    apply Z.eqb_eq; assumption.
Qed.

Lemma on_day_perm (rows rows' : list (Z * F64.t)) (d : Z) :
  Permutation rows rows' -> on_day rows d = on_day rows' d.
Proof.
  intros Hp. apply eq_true_iff_eq. rewrite !on_day_iff.
  split; intros (r & Hin & H); exists r; split; try assumption.
  - eapply Permutation_in; eassumption.
  - eapply Permutation_in; [symmetry |]; eassumption.
Qed.

Lemma values_on_absent (rows : list (Z * F64.t)) (d : Z) :
  on_day rows d = false -> values_on d rows = [].
Proof.
  unfold on_day, values_on. induction rows as [| r rows IH]; [reflexivity |].
  simpl. intros H. apply orb_false_iff in H as [-> H]. apply IH, H.
Qed.

Lemma filter_keeps_all (f : Z -> bool) (l : list Z) :
  length (filter f l) = length l -> forall x, In x l -> f x = true.
Proof.
  induction l as [| a l IH]; intros Hlen x Hin; [destruct Hin |].
  simpl in Hlen. pose proof (filter_length_le f l) as Hle.
  destruct (f a) eqn:Ha; simpl in Hlen; [| lia].
  destruct Hin as [<- | Hin]; [exact Ha | apply IH; [lia | exact Hin]].
Qed.

Lemma filter_all (f : Z -> bool) (l : list Z) :
  (forall x, In x l -> f x = true) -> filter f l = l.
Proof.
  induction l as [| a l IH]; intros H; [reflexivity |].
  simpl. rewrite (H a) by (left; reflexivity).
  f_equal. apply IH. intros x Hx. apply H. right. exact Hx.
Qed.

(** The bars: one per calendar day from the day of the earliest row to
    the day of the latest. *)
Lemma resample_structure (rows : list (Z * F64.t)) :
  rows <> [] ->
  exists first last,
    on_day rows first = true /\ on_day rows last = true
    /\ (forall r, In r rows -> first <= day_of (fst r) <= last)
    /\ resample_1D_sum rows
       = map (fun d => (d, pd_sum (values_on d (sort_by_time rows))))
             (day_range first last).
Proof.
  intros Hne.
  pose proof (sort_by_time_perm rows) as Hperm.
  pose proof (sort_by_time_sorted rows) as Hss.
  unfold resample_1D_sum.
  destruct (sort_by_time rows) as [| r0 tl] eqn:E.
  { apply Permutation_nil in Hperm. contradiction. }
  exists (day_of (fst r0)), (day_of (fst (last (r0 :: tl) r0))).
  split.
  { apply on_day_iff. exists r0. split; [| reflexivity].
    eapply Permutation_in; [exact Hperm | left; reflexivity]. }
  split.
  { apply on_day_iff. exists (last (r0 :: tl) r0). split; [| reflexivity].
    eapply Permutation_in; [exact Hperm | apply last_in]. }
  split; [| reflexivity].
  intros r Hr.
  assert (In r (r0 :: tl)) as Hr'
    by (eapply Permutation_in; [symmetry; exact Hperm | exact Hr]).
  split; apply day_of_mono.
  - inversion Hss as [| ? ? _ Hall]; subst. rewrite Forall_forall in Hall.
    destruct Hr' as [<- | Hr']; [lia | apply Hall, Hr'].
  - apply sorted_last_max; assumption.
Qed.



(** ** Exact sums of integers *)

Lemma sum_abs_nonneg (zs : list Z) : 0 <= sum_abs zs.
Proof. induction zs as [| z zs IH]; simpl; lia. Qed.

Lemma sum_Z_perm (zs zs' : list Z) :
  Permutation zs zs' -> sum_Z zs = sum_Z zs' /\ sum_abs zs = sum_abs zs'.
Proof. induction 1; simpl; lia. Qed.

Lemma iter_pos_comm (A : Type) (f : A -> A) (n : positive) :
  forall x, iter_pos f n (f x) = f (iter_pos f n x).
Proof.
  induction n as [n IH | n IH |]; intros x; simpl.
  - rewrite !IH. reflexivity.
  - rewrite !IH. reflexivity.
  - reflexivity.
Qed.

Lemma iter_pos_succ (A : Type) (f : A -> A) (n : positive) :
  forall x, iter_pos f (Pos.succ n) x = f (iter_pos f n x).
Proof.
  induction n as [n IH | n IH |]; intros x; simpl.
  - rewrite !IH, !iter_pos_comm. reflexivity.
  - rewrite !iter_pos_comm. reflexivity.
  - reflexivity.
Qed.

(** Shifting the mantissa [2 * m] by one bit more gives what shifting
    [m] gives. *)
Lemma shr_double (m : positive) (e n : Z) :
  0 <= n ->
  shr (Build_shr_record (Z.pos m~0) false false) (e - 1) (n + 1)
  = shr (Build_shr_record (Z.pos m) false false) e n.
Proof.
  intros Hn. unfold shr.
  destruct n as [| q | q]; [| | lia].
  - simpl. f_equal. lia.
  - replace (Z.pos q + 1) with (Z.pos (Pos.succ q)) by lia.
    rewrite iter_pos_succ, <- iter_pos_comm. simpl shr_1.
    f_equal. lia.
Qed.

Lemma shift_double (k m : positive) :
  Pos.iter xO (xO m) k = Pos.iter xO m (Pos.succ k).
Proof. rewrite Pos.iter_succ. exact (Pos.iter_swap k positive xO m). Qed.

(** Rounding does not depend on the way the number is written:
    [2 * m] with exponent [e - 1] rounds as [m] with exponent [e]. *)
Lemma binary_round_double (s : bool) (m : positive) (e : Z) :
  binary_round F64.prec F64.emax s m~0 (e - 1)
  = binary_round F64.prec F64.emax s m e.
Proof.
  unfold binary_round.
  assert (Hd : Z.pos (digits2_pos m~0) + (e - 1) = Z.pos (digits2_pos m) + e)
    by (simpl digits2_pos; lia).
  rewrite Hd.
  set (f := fexp F64.prec F64.emax (Z.pos (digits2_pos m) + e)).
  assert (Haux : 0 <= f - e ->
            binary_round_aux F64.prec F64.emax s (Z.pos m~0) (e - 1) loc_Exact
            = binary_round_aux F64.prec F64.emax s (Z.pos m) e loc_Exact).
  { intros Hg. unfold binary_round_aux, shr_fexp.
    cbn [Zdigits2 shr_record_of_loc]. rewrite Hd. fold f.
    replace (f - (e - 1)) with (f - e + 1) by lia.
    rewrite shr_double by exact Hg. reflexivity. }
  unfold shl_align.
  replace (f - (e - 1)) with (f - e + 1) by lia.
  destruct (f - e) as [| g | g] eqn:Eg.
  - simpl Z.add. cbv iota. apply Haux. lia.
  - replace (Z.pos g + 1) with (Z.pos (g + 1)) by lia. cbv iota.
    apply Haux. lia.
  - destruct (Pos.eq_dec g 1) as [-> | Hg1].
    + simpl Z.add. cbv iota. replace (e - 1) with f by lia. reflexivity.
    + replace (Z.neg g + 1) with (Z.neg (Pos.pred g)) by lia. cbv iota.
      rewrite shift_double, Pos.succ_pred by exact Hg1. reflexivity.
Qed.

Lemma binary_round_shift (s : bool) (m : positive) (k : positive) :
  binary_round F64.prec F64.emax s (Pos.iter xO m k) (- Z.pos k)
  = binary_round F64.prec F64.emax s m 0.
Proof.
  assert (H : forall e,
            binary_round F64.prec F64.emax s (Pos.iter xO m k) (e - Z.pos k)
            = binary_round F64.prec F64.emax s m e).
  { induction k as [| k IH] using Pos.peano_ind; intros e.
    - apply binary_round_double.
    - rewrite Pos.iter_succ.
      replace (e - Z.pos (Pos.succ k)) with (e - Z.pos k - 1) by lia.
      rewrite binary_round_double. apply IH. }
  apply (H 0).
Qed.

Lemma iter_xO_value (m k : positive) :
  Z.pos (Pos.iter xO m k) = Z.pos m * 2 ^ Z.pos k.
Proof.
  induction k as [| k IH] using Pos.peano_ind.
  - simpl. lia.
  - rewrite Pos.iter_succ, Pos2Z.inj_xO, IH, Pos2Z.inj_succ, Z.pow_succ_r by lia.
    lia.
Qed.

(** An integer below [2^53] is a float: its bits fill the mantissa from
    the left, and its value is kept. *)
Lemma round_small_shape (s : bool) (p : positive) :
  Z.pos p < 2 ^ 53 ->
  exists m e,
    binary_round F64.prec F64.emax s p 0 = S754_finite s m e
    /\ e <= 0 /\ Z.pos m = Z.pos p * 2 ^ (- e).
Proof.
  intros H. apply digits2_small in H.
  unfold binary_round.
  set (d := digits2_pos p) in *.
  assert (Hf : fexp F64.prec F64.emax (Z.pos d + 0) = Z.pos d - 53).
  { unfold fexp, emin, F64.prec, F64.emax. lia. }
  rewrite Hf. unfold shl_align.
  destruct (Z.pos d - 53 - 0) as [| k | k] eqn:Hk; try lia.
  - unfold binary_round_aux, shr_fexp.
    cbn [Zdigits2]. fold d.
    replace (fexp F64.prec F64.emax (Z.pos d + 0) - 0) with 0 by lia.
    cbn [shr shr_record_of_loc shr_m loc_of_shr_record round_nearest_even
         Zdigits2].
    fold d. replace (fexp F64.prec F64.emax (Z.pos d + 0) - 0) with 0 by lia.
    cbn [shr shr_m].
    exists p, 0. split; [reflexivity |]. split; [lia |]. simpl. lia.
  - unfold binary_round_aux, shr_fexp.
    cbn [Zdigits2]. rewrite digits2_iter_xO. fold d.
    assert (Hf2 : fexp F64.prec F64.emax (Z.pos (d + k) + (Z.pos d - 53))
                  - (Z.pos d - 53) = 0).
    { unfold fexp, emin, F64.prec, F64.emax. lia. }
    rewrite Hf2.
    cbn [shr shr_record_of_loc shr_m loc_of_shr_record round_nearest_even
         Zdigits2].
    rewrite digits2_iter_xO. fold d. rewrite Hf2.
    cbn [shr shr_m].
    assert (Hle : (Z.pos d - 53 <=? F64.emax - F64.prec) = true).
    { apply Z.leb_le. unfold F64.emax, F64.prec. lia. }
    rewrite Hle.
    exists (Pos.iter xO p k), (Z.pos d - 53).
    split; [reflexivity |]. split; [lia |].
    rewrite iter_xO_value. f_equal. f_equal. lia.
Qed.

Lemma shl_align_value (m : positive) (e e' : Z) :
  e' <= e -> Z.pos (fst (shl_align m e e')) = Z.pos m * 2 ^ (e - e').
Proof.
  intros H. unfold shl_align.
  destruct (e' - e) as [| k | k] eqn:Ek; try lia; cbn [fst].
  - replace (e - e') with 0 by lia. simpl. lia.
  - rewrite iter_xO_value. f_equal. f_equal. lia.
Qed.

(** The conversion of an integer, by its sign. *)
Lemma of_Z_pos (p : positive) :
  F64.of_Z (Z.pos p) = binary_round F64.prec F64.emax false p 0.
Proof. reflexivity. Qed.

Lemma of_Z_neg (p : positive) :
  F64.of_Z (Z.neg p) = binary_round F64.prec F64.emax true p 0.
Proof. reflexivity. Qed.

Lemma of_Z_shape (a : Z) :
  a <> 0 -> Z.abs a < 2 ^ 53 ->
  exists s m e,
    F64.of_Z a = S754_finite s m e
    /\ e <= 0 /\ cond_Zopp s (Z.pos m) = a * 2 ^ (- e).
Proof.
  intros Ha Hb. destruct a as [| p | p]; [contradiction | |].
  - destruct (round_small_shape false p) as (m & e & E & He & Hm); [lia |].
    exists false, m, e. rewrite of_Z_pos. repeat split; assumption.
  - destruct (round_small_shape true p) as (m & e & E & He & Hm); [lia |].
    exists true, m, e. rewrite of_Z_neg. repeat split; try assumption.
    cbn [cond_Zopp]. rewrite Hm. lia.
Qed.

(** Rounding [z * 2^k] written with exponent [-k] is the conversion of
    the integer [z]. *)
Lemma normalize_scaled (z k : Z) :
  0 <= k ->
  binary_normalize F64.prec F64.emax (z * 2 ^ k) (- k) false = F64.of_Z z.
Proof.
  intros Hk.
  assert (Hpos : forall (s : bool) (p q : positive),
            Z.pos q = Z.pos p * 2 ^ k ->
            binary_round F64.prec F64.emax s q (- k)
            = binary_round F64.prec F64.emax s p 0).
  { intros s p q Hq. destruct k as [| k' | k']; [| | lia].
    - simpl in Hq. replace q with p by lia. reflexivity.
    - rewrite <- iter_xO_value in Hq. injection Hq as ->.
      apply binary_round_shift. }
  pose proof (Z.pow_pos_nonneg 2 k ltac:(lia) Hk) as H2.
  destruct z as [| p | p].
  - reflexivity.
  - destruct (Z.pos p * 2 ^ k) as [| q | q] eqn:E; try lia.
    cbn [binary_normalize]. rewrite of_Z_pos. apply Hpos. lia.
  - destruct (Z.neg p * 2 ^ k) as [| q | q] eqn:E; try lia.
    cbn [binary_normalize]. rewrite of_Z_neg. apply Hpos. lia.
Qed.

(** The sum of two integers is exact when the three integers are below
    [2^53] in absolute value. *)
Lemma add_exact (a b : Z) :
  Z.abs a < 2 ^ 53 -> Z.abs b < 2 ^ 53 ->
  F64.add (F64.of_Z a) (F64.of_Z b) = F64.of_Z (a + b).
Proof.
  intros Ha Hb.
  destruct (Z.eq_dec a 0) as [-> | Na].
  { simpl Z.add. change (F64.of_Z 0) with (S754_zero false).
    destruct (Z.eq_dec b 0) as [-> | Nb]; [reflexivity |].
    destruct (of_Z_shape b Nb Hb) as (s & m & e & -> & _). reflexivity. }
  destruct (Z.eq_dec b 0) as [-> | Nb].
  { rewrite Z.add_0_r. change (F64.of_Z 0) with (S754_zero false).
    destruct (of_Z_shape a Na Ha) as (s & m & e & -> & _). reflexivity. }
  destruct (of_Z_shape a Na Ha) as (sa & ma & ea & -> & Hea & Hma).
  destruct (of_Z_shape b Nb Hb) as (sb & mb & eb & -> & Heb & Hmb).
  unfold F64.add, SFadd. cbv zeta.
  set (ez := Z.min ea eb).
  assert (Hez : ez <= 0) by (unfold ez; lia).
  assert (Hsum : cond_Zopp sa (Z.pos (fst (shl_align ma ea ez)))
                 + cond_Zopp sb (Z.pos (fst (shl_align mb eb ez)))
                 = (a + b) * 2 ^ (- ez)).
  { rewrite !shl_align_value by (unfold ez; lia).
    assert (Ea : 2 ^ (- ez) = 2 ^ (- ea) * 2 ^ (ea - ez)).
    { rewrite <- Z.pow_add_r by (unfold ez; lia). f_equal. lia. }
    assert (Eb : 2 ^ (- ez) = 2 ^ (- eb) * 2 ^ (eb - ez)).
    { rewrite <- Z.pow_add_r by (unfold ez; lia). f_equal. lia. }
    rewrite Z.mul_add_distr_r.
    rewrite Ea at 1. rewrite Eb.
    rewrite !Z.mul_assoc, <- Hma, <- Hmb.
    destruct sa, sb; cbn [cond_Zopp]; lia. }
  rewrite Hsum.
  replace ez with (- (- ez)) at 2 by lia.
  apply normalize_scaled. lia.
Qed.

Lemma fold_add_exact (zs : list Z) :
  forall acc,
    Z.abs acc + sum_abs zs < 2 ^ 53 ->
    fold_left F64.add (map fl zs) (fl acc) = fl (acc + sum_Z zs).
Proof.
  induction zs as [| z zs IH]; intros acc H; simpl.
  - rewrite Z.add_0_r. reflexivity.
  - simpl in H. pose proof (sum_abs_nonneg zs).
    unfold fl at 1 2. rewrite add_exact by lia. fold (fl (acc + z)).
    rewrite IH by lia. f_equal. lia.
Qed.

Lemma dropna_integers (zs : list Z) : dropna (map fl zs) = map fl zs.
Proof.
  induction zs as [| z zs IH]; [reflexivity |].
  simpl. unfold fl at 1, F64.of_Z. rewrite binary_normalize_not_nan. simpl.
  rewrite IH. reflexivity.
Qed.

(** The pandas sum of integers is their sum, exactly, as long as the
    absolute values add up to less than [2^53]. *)
Lemma pd_sum_integers (zs : list Z) :
  sum_abs zs < 2 ^ 53 -> pd_sum (map fl zs) = fl (sum_Z zs).
Proof.
  intros H. unfold pd_sum, np_sum. rewrite dropna_integers.
  change F64.zero with (fl 0). rewrite fold_add_exact by (simpl; lia).
  reflexivity.
Qed.

Lemma pd_sum_single (v : F64.t) :
  if F64.is_nan v then pd_sum [v] = F64.zero
  else F64.eqb (pd_sum [v]) v = true /\ (is_zero v = false -> pd_sum [v] = v).
Proof.
  destruct v as [[] | [] | | [] m e]; cbn; try reflexivity;
    (split; [try reflexivity | intros H; try discriminate; reflexivity]).
  all: rewrite Pos.compare_cont_refl, Z.compare_refl; reflexivity.
Qed.

Lemma values_on_perm (d : Z) (rows rows' : list (Z * F64.t)) :
  Permutation rows rows' -> Permutation (values_on d rows) (values_on d rows').
Proof.
  intros H. unfold values_on. apply Permutation_map.
  induction H as [| r l l' H IH | r r' l | l l' l'' H1 IH1 H2 IH2]; simpl.
  - constructor.
  - destruct (_ =? _); [constructor |]; exact IH.
  - destruct (day_of (fst r) =? d), (day_of (fst r') =? d);
      try reflexivity. apply perm_swap.
  - etransitivity; eassumption.
Qed.

(** C3, as amended.  The daily bars are one bar per calendar day from
    the day of the earliest row to the day of the latest, in increasing
    order of days, whether a value falls on the day or not.  The days on
    which a value falls are the keys of the specification's grouping,
    and there are as many bars as keys exactly when no calendar day
    between the first and the last is missing from the input.  The bar
    of a day on which nothing falls is [0.0]; the bar of a day on which
    one value falls is that value ([0.0] when it is NaN); the bar of a
    day on which integers fall is their sum, as long as their absolute
    values add up to less than [2^53].  These bars are the ones the
    Sharpe ratio, the profit factor, the streaks and the drawdown of a
    returned frame are computed from. *)
Theorem daily_bars_fill_calendar_days (rows : list (Z * F64.t)) :
  rows <> [] ->
  exists first last,
    on_day rows first = true /\ on_day rows last = true
    /\ (forall r, In r rows -> first <= day_of (fst r) <= last)
    /\ map fst (resample_1D_sum rows) = day_range first last
    /\ StronglySorted Z.lt (map fst (resample_1D_sum rows))
    /\ length (daily_bars rows) = Z.to_nat (last - first + 1)
    /\ filter (on_day rows) (map fst (resample_1D_sum rows)) = day_keys_spec rows
    /\ (length (daily_bars rows) = length (day_keys_spec rows)
        <-> forall d, first <= d <= last -> on_day rows d = true)
    /\ (forall d bar,
          In (d, bar) (resample_1D_sum rows) ->
          (on_day rows d = false -> bar = F64.zero)
          /\ (forall v,
                values_on d rows = [v] ->
                if F64.is_nan v then bar = F64.zero
                else F64.eqb bar v = true /\ (is_zero v = false -> bar = v))
          /\ (forall zs,
                Permutation (values_on d rows) (map fl zs) ->
                sum_abs zs < 2 ^ 53 ->
                bar = fl (sum_Z zs)))
    /\ (forall dates pnl tp idx target diy df,
          rows = combine dates pnl ->
          (1 < length pnl)%nat ->
          stat_ts dates pnl tp idx target diy = Ok df ->
          let df_pnl := daily_bars rows in
          loc df idx "sharpe" = Some (Some (PyFloat (sharpe_of df_pnl diy)))
          /\ loc df idx "PF"
             = Some (Some (PyFloat (np_round (profit_factor_of df_pnl) 2)))
          /\ loc df idx "Max wins in row"
             = Some (Some (PyInt (_calc_consecutive (pnl_nz_of df_pnl) true)))
          /\ loc df idx "Max losses in row"
             = Some (Some (PyInt (_calc_consecutive (pnl_nz_of df_pnl) false)))
          /\ exists drawdown,
               drawdown_of (pnl_nz_of df_pnl) = Ok drawdown
               /\ loc df idx (String.append "Max DD, " (postfix_of target))
                  = Some (Some (PyFloat
                      (np_round (F64.mul drawdown (F64.of_Z (scale_of target))) 2)))).
Proof.
  intros Hne.
  destruct (resample_structure rows Hne)
    as (first & last_day & Hfirst & Hlast & Hbound & Hbars).
  pose proof (sort_by_time_perm rows) as Hperm.
  set (sorted := sort_by_time rows) in *.
  assert (Hdays : map fst (resample_1D_sum rows) = day_range first last_day).
  { rewrite Hbars, map_map. simpl. apply map_id. }
  assert (Hkeys : filter (on_day rows) (day_range first last_day)
                  = day_keys_spec rows).
  { apply increasing_ext.
    - apply filter_increasing, day_steps_increasing.
    - apply day_keys_increasing.
    - intros d. rewrite filter_In, in_day_range, in_day_keys.
      split; [intros [_ H]; exact H |].
      intros H. split; [| exact H].
      apply on_day_iff in H as (r & Hr & <-). apply Hbound, Hr. }
  assert (Hlen : length (daily_bars rows) = length (day_range first last_day)).
  { unfold daily_bars. rewrite length_map, <- Hdays, length_map. reflexivity. }
  exists first, last_day.
  split; [exact Hfirst |]. split; [exact Hlast |]. split; [exact Hbound |].
  split; [exact Hdays |].
  split. { rewrite Hdays. apply day_steps_increasing. }
  split. { rewrite Hlen. unfold day_range. rewrite length_map, length_seq.
           reflexivity. }
  split. { rewrite Hdays. exact Hkeys. }
  split.
  { rewrite Hlen, <- Hkeys. split.
    - intros Heq d Hd.
      apply (filter_keeps_all (on_day rows) (day_range first last_day)).
      + symmetry. exact Heq.
      + apply in_day_range, Hd.
    - intros Hall. rewrite filter_all; [reflexivity |].
      intros d Hd. apply Hall, in_day_range, Hd. }
  split.
  { intros d bar Hin. rewrite Hbars in Hin.
    apply in_map_iff in Hin as (d' & E & _). injection E as -> <-.
    pose proof (values_on_perm d _ _ Hperm) as Hvals. fold sorted in Hvals.
    split; [| split].
    - intros Habs. rewrite (on_day_perm _ _ d (Permutation_sym Hperm)) in Habs.
      fold sorted in Habs. rewrite (values_on_absent _ _ Habs). reflexivity.
    - intros v Hv. rewrite Hv in Hvals.
      apply Permutation_sym, Permutation_length_1_inv in Hvals. rewrite Hvals.
      apply pd_sum_single.
    - intros zs Hzs Hsmall.
      assert (Hp : Permutation (values_on d sorted) (map fl zs))
        by (etransitivity; eassumption).
      apply Permutation_map_inv in Hp as (zs' & -> & Hp).
      destruct (sum_Z_perm _ _ Hp) as [-> Habs].
      apply pd_sum_integers. lia. }
  intros dates pnl tp idx target diy df -> Hlen' Hdf.
  destruct (stat_ts_normal _ _ _ _ _ _ _ Hlen' Hdf)
    as (c & n & t & dd & _ & _ & _ & _ & Hdd & Hcells).
  cbv zeta in Hcells.
  destruct Hcells as (_ & Hsh & _ & _ & _ & _ & Hpf & Hmax & Hw & Hl).
  cbv zeta. repeat split; try assumption.
  exists dd. split; assumption.
Qed.

Lemma daily_bars_fill_calendar_days_witness :
  let rows := [(day 3, fl 1); (day 6, fl 2); (day 3 + 5, fl 4)] in
  rows <> []
  /\ exists first last,
       map fst (resample_1D_sum rows) = day_range first last
       /\ length (daily_bars rows) = Z.to_nat (last - first + 1)
       /\ (forall d bar,
             In (d, bar) (resample_1D_sum rows) ->
             (on_day rows d = false -> bar = F64.zero)
             /\ (forall v,
                   values_on d rows = [v] ->
                   if F64.is_nan v then bar = F64.zero
                   else F64.eqb bar v = true /\ (is_zero v = false -> bar = v))
             /\ (forall zs,
                   Permutation (values_on d rows) (map fl zs) ->
                   sum_abs zs < 2 ^ 53 ->
                   bar = fl (sum_Z zs))).
Proof.
  cbv zeta. split; [discriminate |].
  destruct (daily_bars_fill_calendar_days [(day 3, fl 1); (day 6, fl 2); (day 3 + 5, fl 4)])
    as (first & last & _ & _ & _ & H1 & _ & H2 & _ & _ & H3 & _).
  - discriminate.
  - exists first, last. repeat split; try assumption; apply H3; assumption.
Defined.

(** C3, counterexample.  Two values, on a Friday and on the following
    Monday: the input has two calendar-day keys and the grouped sums are
    [[1.0, 1.0]], but the daily bars are
    [[1.0, 0.0, 0.0, 1.0]], with a bar for the Saturday and the Sunday. *)
Lemma weekend_gap_adds_zero_bars :
  let friday := monday + 4 in
  let rows := combine (map day [friday; friday + 3]) (map fl [1; 1]) in
  day_keys_spec rows = [friday; friday + 3]
  /\ group_by_day_spec rows = [fl 1; fl 1]
  /\ daily_bars rows = [fl 1; F64.zero; F64.zero; fl 1]
  /\ daily_bars rows <> group_by_day_spec rows
  /\ length (daily_bars rows) <> length (day_keys_spec rows).
Proof.
  cbv zeta. repeat split; try (vm_compute; reflexivity);
    vm_compute; discriminate.
Qed.

(** ** Profit factor and Kelly percentage without a losing trade *)






























(** * Further properties of the code *)

(** ** Signs of binary64 results *)

Lemma binary_round_aux_sign (s : bool) (m e : Z) (l : location) :
  0 <= m -> has_sign s (binary_round_aux F64.prec F64.emax s m e l) = true.
Proof.
  intros H. unfold binary_round_aux.
  pose proof (shr_fexp_nonneg m e l H) as H1.
  destruct (shr_fexp F64.prec F64.emax m e l) as [mrs' e'].
  simpl fst in H1.
  pose proof (shr_fexp_nonneg _ e' loc_Exact
                (round_nearest_even_nonneg _ (loc_of_shr_record mrs') H1)) as H2.
  destruct (shr_fexp F64.prec F64.emax _ e' loc_Exact) as [mrs'' e''].
  simpl fst in H2.
  destruct (shr_m mrs'') as [| p | p]; [| | lia].
  - simpl. apply eqb_reflx.
  - destruct (e'' <=? _); simpl; apply eqb_reflx.
Qed.

Lemma binary_round_sign (s : bool) (m : positive) (e : Z) :
  has_sign s (binary_round F64.prec F64.emax s m e) = true.
Proof.
  unfold binary_round. destruct (shl_align _ _ _).
  apply binary_round_aux_sign. lia.
Qed.

(** The conversion of a non-negative integer has sign [+]. *)
Lemma of_Z_nonneg_sign (z : Z) : 0 <= z -> has_sign false (F64.of_Z z) = true.
Proof.
  intros H. destruct z as [| p | p]; [reflexivity | | lia].
  apply binary_round_sign.
Qed.

Lemma mul_finite_sign (sx sy : bool) (x : F64.t) (my : positive) (ey : Z) :
  has_sign sx x = true ->
  has_sign (xorb sx sy) (F64.mul x (S754_finite sy my ey)) = true.
Proof.
  destruct x as [s | s | | s m e]; simpl; intros H; try discriminate;
    apply eqb_prop in H; subst s; try apply eqb_reflx.
  apply binary_round_aux_sign. lia.
Qed.

Lemma div_core_nonneg (m1 m2 : positive) (e1 e2 : Z) :
  0 <= fst (fst (SFdiv_core_binary F64.prec F64.emax (Z.pos m1) e1 (Z.pos m2) e2)).
Proof.
  unfold SFdiv_core_binary. cbv zeta.
  match goal with
  | |- context [Z.div_eucl ?a ?b] =>
      assert (Ha : 0 <= a);
      [| pose proof (Z.div_pos a b Ha ltac:(lia)) as Hq;
         unfold Z.div in Hq; destruct (Z.div_eucl a b) as [q r]; exact Hq]
  end.
  destruct (e1 - e2 - _) as [| k | k]; try lia.
  apply Z.shiftl_nonneg. lia.
Qed.

Lemma div_finite_sign (sx sy : bool) (x : F64.t) (my : positive) (ey : Z) :
  has_sign sx x = true ->
  has_sign (xorb sx sy) (F64.div x (S754_finite sy my ey)) = true.
Proof.
  destruct x as [s | s | | s m e]; simpl; intros H; try discriminate;
    apply eqb_prop in H; subst s; try apply eqb_reflx.
  pose proof (div_core_nonneg m my e ey) as Hq.
  destruct (SFdiv_core_binary _ _ _ _ _ _) as [[mz ez] lz]. simpl in Hq.
  apply binary_round_aux_sign, Hq.
Qed.

Lemma rint_sign (s : bool) (x : F64.t) :
  has_sign s x = true -> has_sign s (F64.rint x) = true.
Proof.
  destruct x as [s' | s' | | s' m e]; simpl; intros H; try discriminate;
    try exact H.
  destruct e as [| k | k]; try exact H.
  apply eqb_prop in H; subst s'.
  set (d := Z.pow_pos 2 k).
  assert (Hd : 0 < d) by (unfold d; rewrite Z.pow_pos_fold; lia).
  assert (Hq : 0 <= Z.pos m / d) by (apply Z.div_pos; lia).
  set (q' := match Z.compare _ _ with Lt => _ | Eq => _ | Gt => _ end).
  assert (Hq' : 0 <= q').
  { unfold q'. destruct (Z.compare _ _); [destruct (Z.even _) | |]; lia. }
  destruct q' as [| p | p]; [destruct s; simpl; reflexivity | | lia].
  destruct s; simpl; apply binary_round_sign.
Qed.

(** Rounding to 2 or 3 decimals keeps the sign. *)
Lemma np_round_sign (s : bool) (x : F64.t) (n : Z) :
  n = 2 \/ n = 3 ->
  has_sign s x = true -> has_sign s (np_round x n) = true.
Proof.
  intros Hn H. unfold np_round.
  assert (Hf : exists m e, F64.of_Z (10 ^ n) = S754_finite false m e)
    by (destruct Hn as [-> | ->]; eexists _, _; vm_compute; reflexivity).
  destruct Hf as (m & e & ->).
  rewrite <- (xorb_false_r s). apply div_finite_sign, rint_sign.
  rewrite <- (xorb_false_r s) at 1. apply mul_finite_sign, H.
Qed.

Lemma np_round_nan (n : Z) : np_round F64.nan n = F64.nan.
Proof. unfold np_round. destruct (F64.of_Z (10 ^ n)); reflexivity. Qed.

Lemma scale_finite (target : string) :
  exists m e, F64.of_Z (scale_of target) = S754_finite false m e.
Proof.
  unfold scale_of. destruct (String.eqb target "pct");
    eexists _, _; vm_compute; reflexivity.
Qed.

Lemma has_sign_neg_le (x : F64.t) :
  has_sign true x = true -> F64.leb x F64.zero = true.
Proof.
  destruct x as [[] | [] | | [] m e]; cbn; intros H;
    try discriminate; reflexivity.
Qed.

Lemma has_sign_pos_ge (x : F64.t) :
  has_sign false x = true -> F64.geb x F64.zero = true.
Proof.
  destruct x as [[] | [] | | [] m e]; cbn; intros H;
    try discriminate; reflexivity.
Qed.

Lemma nonpos_cases (x : F64.t) :
  F64.leb x F64.zero = true -> is_zero x = true \/ has_sign true x = true.
Proof.
  destruct x as [[] | [] | | [] m e]; cbn; intros H;
    try discriminate; auto.
Qed.

(** ** When the call returns, and what it raises *)

(** The cells of a returned frame that [stat_ts_normal] leaves out. *)
Lemma stat_ts_normal_cells dates pnl tp idx target diy df :
  (1 < length pnl)%nat ->
  stat_ts dates pnl tp idx target diy = Ok df ->
  let df_pnl := daily_bars (combine dates pnl) in
  loc df idx "sortino" = Some (Some (PyFloat (sortino_of df_pnl diy)))
  /\ loc df idx "Win, %"
     = Some (Some (PyFloat (np_round (F64.mul (win_pct_of df_pnl) (F64.of_Z 100)) 2)))
  /\ loc df idx (String.append "Avg Win, " (postfix_of target))
     = Some (Some (avg_of is_pos df_pnl target))
  /\ loc df idx (String.append "Avg Loss, " (postfix_of target))
     = Some (Some (avg_of is_neg df_pnl target))
  /\ shape df = (1%nat, 13%nat)
  /\ Forall (fun col => exists v, snd col = [Some v]) (columns df).
Proof.
  intros Hlen. unfold stat_ts.
  apply Nat.leb_gt in Hlen. rewrite Hlen.
  destruct (int_truediv diy tp); [cbn [bind] | discriminate].
  destruct (float_of_int _); [cbn [bind] | discriminate].
  destruct (int_of_float _); [cbn [bind] | discriminate].
  unfold make_frame.
  destruct (length dates =? length pnl)%nat; [cbn [bind] | discriminate].
  destruct (annualised_ratio _ _ _) as [sharpe |]; [cbn [bind] | discriminate].
  destruct (annualised_ratio _ _ _) as [sortino |] eqn:Hso;
    [cbn [bind] | discriminate].
  apply sortino_ok in Hso. subst sortino.
  destruct (drawdown_of _); [cbn [bind] | discriminate].
  intros H. injection H as <-.
  cbv zeta. unfold loc.
  cbn [index columns DataFrame_of_scalars position map fst snd].
  rewrite row_id_eqb_refl.
  split; [cbn; reflexivity |].
  split; [cbn; reflexivity |].
  split; [cbn; rewrite ?String.eqb_refl; reflexivity |].
  split; [cbn; rewrite ?String.eqb_refl; reflexivity |].
  split; [reflexivity |].
  repeat (constructor; [eexists; reflexivity |]). constructor.
Qed.

(** X1.  [ZeroDivisionError] is raised exactly when there are at least
    two pnl values and the test period is 0: the division
    [days_in_year / test_period] of two [int]s comes first on the normal
    path, and nothing else raises this exception. *)
Theorem zero_test_period_raises dates pnl tp idx target diy :
  stat_ts dates pnl tp idx target diy = Raise ZeroDivisionError
  <-> (1 < length pnl)%nat /\ tp = 0.
Proof.
  unfold stat_ts, int_truediv. split.
  - destruct (length pnl <=? 1)%nat eqn:Hlen; [discriminate |].
    apply Nat.leb_gt in Hlen.
    destruct (tp =? 0) eqn:Htp; [intros _; apply Z.eqb_eq in Htp; auto |].
    destruct (F64.is_finite _); [cbn [bind] | discriminate].
    unfold float_of_int. destruct (F64.is_finite _); [cbn [bind] | discriminate].
    unfold int_of_float.
    destruct (F64.trunc _); [cbn [bind] | destruct (F64.is_nan _); discriminate].
    unfold make_frame.
    destruct (length dates =? length pnl)%nat; [cbn [bind] | discriminate].
    destruct (annualised_ratio _ _ _) eqn:Hsh; [clear Hsh; cbn [bind] |].
    2: { intros E. injection E as ->.
         apply annualised_ratio_raises in Hsh as [Hsh _]. discriminate. }
    destruct (annualised_ratio _ _ _) eqn:Hso; [clear Hso; cbn [bind] |].
    2: { intros E. injection E as ->.
         apply annualised_ratio_raises in Hso as [Hso _]. discriminate. }
    unfold drawdown_of, np_min.
    destruct (np_subtract _ _); discriminate.
  - intros [Hlen ->]. apply Nat.leb_gt in Hlen. rewrite Hlen. reflexivity.
Qed.

(** X2.  With at least two pnl values and a number of dates that is not
    the number of values, the call returns no frame; it raises
    [ValueError] (from the construction of the frame) whenever the
    annualisation before it raises nothing. *)
Theorem mismatched_lengths_raise dates pnl tp idx target diy :
  (1 < length pnl)%nat ->
  length dates <> length pnl ->
  (forall df, stat_ts dates pnl tp idx target diy <> Ok df)
  /\ (forall trades,
        trades_per_year pnl tp diy = Ok trades ->
        stat_ts dates pnl tp idx target diy = Raise ValueError).
Proof.
  intros Hlen Hd. split.
  - intros df H. apply stat_ts_normal in H; [| exact Hlen].
    destruct H as (c & n & t & dd & _ & _ & _ & Heq & _). contradiction.
  - intros trades Htr.
    destruct (trades_per_year_ok _ _ _ _ Htr) as (c & n & Hc & Hn & Ht).
    unfold stat_ts. apply Nat.leb_gt in Hlen. rewrite Hlen.
    rewrite Hc. cbn [bind]. rewrite Hn. cbn [bind]. rewrite Ht. cbn [bind].
    unfold make_frame. apply Nat.eqb_neq in Hd. rewrite Hd. reflexivity.
Qed.

Lemma mismatched_lengths_raise_witness :
  stat_ts [day 0] (map fl [1; 2]) 2 (IdInt 0) "pct" 365 = Raise ValueError.
Proof.
  apply (mismatched_lengths_raise [day 0] (map fl [1; 2]) 2 (IdInt 0) "pct" 365)
    with (trades := 365).
  - simpl. lia.
  - simpl. lia.
  - vm_compute. reflexivity.
Defined.

(** In a returned frame both ratios have been computed. *)
Lemma stat_ts_ratios dates pnl tp idx target diy df :
  (1 < length pnl)%nat ->
  stat_ts dates pnl tp idx target diy = Ok df ->
  let df_pnl := daily_bars (combine dates pnl) in
  exists sharpe sortino,
    annualised_ratio (pd_mean df_pnl) (pd_std0 df_pnl) diy = Ok sharpe
    /\ annualised_ratio (pd_mean df_pnl) (pd_std0 (pnl_negative df_pnl)) diy
       = Ok sortino.
Proof.
  intros Hlen. unfold stat_ts.
  apply Nat.leb_gt in Hlen. rewrite Hlen.
  destruct (int_truediv diy tp); [cbn [bind] | discriminate].
  destruct (float_of_int _); [cbn [bind] | discriminate].
  destruct (int_of_float _); [cbn [bind] | discriminate].
  unfold make_frame.
  destruct (length dates =? length pnl)%nat; [cbn [bind] | discriminate].
  destruct (annualised_ratio _ (pd_std0 (daily_bars _)) _) as [sharpe |];
    [cbn [bind] | discriminate].
  destruct (annualised_ratio _ (pd_std0 (pnl_negative _)) _) as [sortino |];
    [cbn [bind] | discriminate].
  intros _. cbv zeta. exists sharpe, sortino. split; reflexivity.
Qed.

Lemma annualised_ratio_beyond (daily_mean std : F64.t) (diy : Z) (v : F64.t) :
  ~ (- 2 ^ 63 <= diy < 2 ^ 64) ->
  annualised_ratio daily_mean std diy = Ok v ->
  F64.truthy std = false /\ v = F64.inf.
Proof.
  intros Hdiy. unfold annualised_ratio, np_sqrt.
  destruct (F64.truthy std); [| intros H; injection H as <-; auto].
  destruct (_ && _) eqn:E; [| discriminate].
  apply andb_true_iff in E as [E1 E2].
  apply Z.leb_le in E1. apply Z.ltb_lt in E2. lia.
Qed.

(** X17.  [np.sqrt(days_in_year)] is evaluated only when a deviation is
    not zero, and raises [TypeError] for an [int] that fits no 64-bit
    integer.  So a frame returned for such a number of days per year
    has both deviations zero and both ratios [+inf]; with
    [pnl = [1, -2]] on two days and [2^64] days per year the call
    raises [TypeError]. *)
Theorem days_in_year_beyond_64_bits dates pnl tp idx target diy df :
  (1 < length pnl)%nat ->
  ~ (- 2 ^ 63 <= diy < 2 ^ 64) ->
  stat_ts dates pnl tp idx target diy = Ok df ->
  let df_pnl := daily_bars (combine dates pnl) in
  F64.truthy (pd_std0 df_pnl) = false
  /\ F64.truthy (pd_std0 (pnl_negative df_pnl)) = false
  /\ loc df idx "sharpe" = Some (Some (PyFloat F64.inf))
  /\ loc df idx "sortino" = Some (Some (PyFloat F64.inf))
  /\ stat_ts (map day [0; 1]) (map fl [1; -2]) 2 idx target (2 ^ 64)
     = Raise TypeError.
Proof.
  intros Hlen Hdiy H df_pnl.
  destruct (stat_ts_ratios _ _ _ _ _ _ _ Hlen H) as (sh & so & Hsh & Hso).
  fold df_pnl in Hsh, Hso.
  pose proof (sharpe_ok _ _ _ Hsh) as Esh.
  pose proof (sortino_ok _ _ _ Hso) as Eso.
  destruct (annualised_ratio_beyond _ _ _ _ Hdiy Hsh) as [Tsh ->].
  destruct (annualised_ratio_beyond _ _ _ _ Hdiy Hso) as [Tso ->].
  destruct (stat_ts_normal _ _ _ _ _ _ _ Hlen H)
    as (c & n & t & dd & _ & _ & _ & _ & _ & Hcells).
  cbv zeta in Hcells. destruct Hcells as (_ & Csh & _).
  destruct (stat_ts_normal_cells _ _ _ _ _ _ _ Hlen H) as (Cso & _).
  cbv zeta in Cso. fold df_pnl in Csh, Cso.
  rewrite <- Esh in Csh. rewrite <- Eso in Cso.
  repeat (split; [assumption |]).
  unfold stat_ts. vm_compute. reflexivity.
Qed.

Lemma days_in_year_beyond_64_bits_witness :
  exists df,
    stat_ts (map day [0; 1]) (map fl [1; 1]) 2 (IdInt 0) "pct" (2 ^ 64) = Ok df
    /\ loc df (IdInt 0) "sharpe" = Some (Some (PyFloat F64.inf))
    /\ loc df (IdInt 0) "sortino" = Some (Some (PyFloat F64.inf))
    /\ stat_ts (map day [0; 1]) (map fl [1; -2]) 2 (IdInt 0) "pct" (2 ^ 64)
       = Raise TypeError.
Proof.
  assert (E : exists df,
             stat_ts (map day [0; 1]) (map fl [1; 1]) 2 (IdInt 0) "pct" (2 ^ 64)
             = Ok df) by (eexists; vm_compute; reflexivity).
  destruct E as [df E].
  destruct (days_in_year_beyond_64_bits
              (map day [0; 1]) (map fl [1; 1]) 2 (IdInt 0) "pct" (2 ^ 64) df)
    as (_ & _ & Hsh & Hso & Hraise); [simpl; lia | lia | exact E |].
  exists df. repeat split; assumption.
Defined.

(** X4.  A returned frame always has one row, labelled by the row id,
    and 13 columns.  Its cells are all [None] when there is at most one
    pnl value and all set otherwise, so the [sharpe] cell is [None]
    exactly when the short path was taken. *)
Theorem none_marks_the_short_path dates pnl tp idx target diy df :
  stat_ts dates pnl tp idx target diy = Ok df ->
  index df = [idx]
  /\ shape df = (1%nat, 13%nat)
  /\ ((length pnl <= 1)%nat ->
      Forall (fun col => snd col = [None]) (columns df))
  /\ ((1 < length pnl)%nat ->
      Forall (fun col => exists v, snd col = [Some v]) (columns df))
  /\ (loc df idx "sharpe" = Some None <-> (length pnl <= 1)%nat).
Proof.
  intros H.
  destruct (Nat.le_gt_cases (length pnl) 1) as [Hle | Hgt].
  - assert (df = _empty_row idx target) as ->.
    { unfold stat_ts in H. apply Nat.leb_le in Hle. rewrite Hle in H.
      injection H as <-. reflexivity. }
    split; [reflexivity |]. split; [reflexivity |].
    split; [intros _; cbn; repeat constructor |].
    split; [intros Hgt; lia |].
    split; [intros _; exact Hle |].
    intros _. unfold loc. cbn [index _empty_row DataFrame_of_scalars position].
    rewrite row_id_eqb_refl. reflexivity.
  - destruct (stat_ts_normal _ _ _ _ _ _ _ Hgt H)
      as (c & n & t & dd & _ & _ & _ & _ & _ & Hcells).
    cbv zeta in Hcells. destruct Hcells as (Hidx & Hsh & _).
    destruct (stat_ts_normal_cells _ _ _ _ _ _ _ Hgt H)
      as (_ & _ & _ & _ & Hshape & Hset).
    split; [exact Hidx |]. split; [exact Hshape |].
    split; [intros Hle; lia |].
    split; [intros _; exact Hset |].
    rewrite Hsh. split; [discriminate | lia].
Qed.

Lemma none_marks_the_short_path_witness :
  loc (_empty_row (IdInt 0) "pct") (IdInt 0) "sharpe" = Some None
  <-> (length [fl 1] <= 1)%nat.
Proof.
  apply (none_marks_the_short_path [day 0] [fl 1] 1 (IdInt 0) "pct" 365).
  reflexivity.
Defined.

(** ** Signs of the cells *)

Lemma add_sign (s : bool) (x y : F64.t) :
  has_sign s x = true -> has_sign s y = true ->
  has_sign s (F64.add x y) = true.
Proof.
  destruct x as [sx | sx | | sx mx ex], y as [sy | sy | | sy my ey];
    simpl; intros Hx Hy; try discriminate;
    apply eqb_prop in Hx; apply eqb_prop in Hy; subst sx sy;
    try (destruct s; simpl; reflexivity).
  unfold binary_normalize.
  destruct (shl_align mx ex (Z.min ex ey)) as [mx' ex'].
  destruct (shl_align my ey (Z.min ex ey)) as [my' ey'].
  cbn [fst]. destruct s; cbn [cond_Zopp].
  - destruct (- Z.pos mx' + - Z.pos my') eqn:E; try lia. apply binary_round_sign.
  - destruct (Z.pos mx' + Z.pos my') eqn:E; try lia. apply binary_round_sign.
Qed.

Lemma fold_add_sign (s : bool) (l : list F64.t) :
  forall acc,
    has_sign s acc = true ->
    Forall (fun x => has_sign s x = true) l ->
    has_sign s (fold_left F64.add l acc) = true.
Proof.
  induction l as [| x l IH]; intros acc Hacc Hl; simpl; [exact Hacc |].
  inversion Hl; subst. apply IH; [apply add_sign |]; assumption.
Qed.

Lemma pos_has_sign (x : F64.t) : is_pos x = true -> has_sign false x = true.
Proof.
  destruct x as [[] | [] | | [] m e]; cbn; intros H; try discriminate; reflexivity.
Qed.

Lemma neg_has_sign (x : F64.t) : is_neg x = true -> has_sign true x = true.
Proof.
  destruct x as [[] | [] | | [] m e]; cbn; intros H; try discriminate; reflexivity.
Qed.

Lemma has_sign_not_nan (s : bool) (x : F64.t) :
  has_sign s x = true -> F64.is_nan x = false.
Proof. destruct x; simpl; intros H; try discriminate; reflexivity. Qed.

Lemma dropna_signed (s : bool) (l : list F64.t) :
  Forall (fun x => has_sign s x = true) l -> dropna l = l.
Proof.
  induction 1 as [| x l Hx _ IH]; [reflexivity |].
  simpl. rewrite (has_sign_not_nan s x Hx). simpl. rewrite IH. reflexivity.
Qed.

Lemma filter_pos_signed (l : list F64.t) :
  Forall (fun x => has_sign false x = true) (filter is_pos l).
Proof.
  apply Forall_forall. intros x Hx. apply filter_In in Hx as [_ Hx].
  apply pos_has_sign, Hx.
Qed.

Lemma filter_neg_signed (l : list F64.t) :
  Forall (fun x => has_sign true x = true) (filter is_neg l).
Proof.
  apply Forall_forall. intros x Hx. apply filter_In in Hx as [_ Hx].
  apply neg_has_sign, Hx.
Qed.

(** The sum of the winning bars has sign [+]; the sum of the losing
    bars, when there is one, has sign [-]. *)
Lemma positive_sum_sign (l : list F64.t) :
  has_sign false (pd_sum (filter is_pos l)) = true.
Proof.
  unfold pd_sum, np_sum. rewrite (dropna_signed false _ (filter_pos_signed l)).
  apply fold_add_sign; [reflexivity | apply filter_pos_signed].
Qed.

Lemma negative_sum_sign (l : list F64.t) :
  filter is_neg l <> [] ->
  has_sign true (pd_sum (filter is_neg l)) = true.
Proof.
  intros Hne. unfold pd_sum, np_sum.
  pose proof (filter_neg_signed l) as Hs.
  rewrite (dropna_signed true _ Hs).
  assert (Hneg : Forall (fun x => is_neg x = true) (filter is_neg l)).
  { apply Forall_forall. intros x Hx. apply filter_In in Hx as [_ Hx]. exact Hx. }
  destruct (filter is_neg l) as [| x rest]; [contradiction |].
  inversion Hs as [| ? ? _ Hrest]; inversion Hneg as [| ? ? Hx _]; subst.
  simpl. apply fold_add_sign; [| exact Hrest].
  destruct x as [[] | [] | | [] m e]; cbn in Hx; try discriminate; reflexivity.
Qed.

Lemma mul_signs_finite (sx sy : bool) (x y : F64.t) :
  F64.is_finite y = true ->
  has_sign sx x = true -> has_sign sy y = true ->
  F64.is_finite x = true ->
  has_sign (xorb sx sy) (F64.mul x y) = true.
Proof.
  intros Hfy Hx Hy Hfx.
  destruct y as [s | s | | s m e]; try discriminate;
    cbn [has_sign] in Hy; apply eqb_prop in Hy; subst s.
  - destruct x as [s' | s' | | s' m' e']; try discriminate;
      cbn [has_sign] in Hx; apply eqb_prop in Hx; subst s';
      cbn; apply eqb_reflx.
  - apply mul_finite_sign, Hx.
Qed.

Lemma raw_sign (z : Z) : 0 <= z -> has_sign false (F64.raw z) = true.
Proof. destruct z; simpl; intros H; try reflexivity; lia. Qed.

Lemma trunc_nonneg (x : F64.t) (z : Z) :
  has_sign false x = true -> int_of_float x = Ok z -> 0 <= z.
Proof.
  unfold int_of_float.
  destruct x as [s | s | | s m e]; cbn [has_sign F64.trunc F64.is_nan];
    intros Hs H; try discriminate.
  - injection H as <-. lia.
  - apply eqb_prop in Hs. subst s.
    destruct e as [| k | k]; injection H as <-; cbn [cond_Zopp].
    + lia.
    + assert (Hp : 0 < Z.pow_pos 2 k) by (rewrite Z.pow_pos_fold; lia).
      change (0 <= Z.pos m * Z.pow_pos 2 k). lia.
    + apply Z.div_pos; [lia |]. rewrite Z.pow_pos_fold. lia.
Qed.

Lemma trades_per_year_nonneg pnl tp diy trades :
  0 < tp -> 0 <= diy ->
  trades_per_year pnl tp diy = Ok trades -> 0 <= trades.
Proof.
  intros Htp Hdiy Htr.
  destruct (trades_per_year_ok _ _ _ _ Htr) as (c & n & Hc & Hn & Ht).
  unfold int_truediv in Hc.
  destruct (tp =? 0); [discriminate |].
  destruct (F64.is_finite (F64.div_Z diy tp)) eqn:Hfc; [| discriminate].
  injection Hc as <-.
  unfold float_of_int in Hn.
  destruct (F64.is_finite (F64.of_Z _)) eqn:Hfn; [| discriminate].
  injection Hn as <-.
  eapply trunc_nonneg; [| exact Ht].
  change false with (xorb false false).
  apply mul_signs_finite; try assumption.
  - apply of_Z_nonneg_sign. unfold np_count_nonzero. lia.
  - unfold F64.div_Z. destruct tp as [| p | p]; try lia. simpl F64.raw.
    change false with (xorb false false).
    apply div_finite_sign, raw_sign, Hdiy.
Qed.

(** X5.  In a returned frame, with a positive test period and a
    non-negative number of days per year, [trades/year] is the integer
    that the annualisation computes, and it is not negative. *)
Theorem trades_per_year_cell_nonneg dates pnl tp idx target diy df :
  (1 < length pnl)%nat ->
  0 < tp -> 0 <= diy ->
  stat_ts dates pnl tp idx target diy = Ok df ->
  exists trades,
    loc df idx "trades/year" = Some (Some (PyInt trades))
    /\ trades_per_year pnl tp diy = Ok trades
    /\ 0 <= trades.
Proof.
  intros Hlen Htp Hdiy H.
  destruct (stat_ts_normal _ _ _ _ _ _ _ Hlen H)
    as (c & n & t & dd & Hc & Hn & Ht & _ & _ & Hcells).
  cbv zeta in Hcells. destruct Hcells as (_ & _ & _ & Htr & _).
  assert (Hty : trades_per_year pnl tp diy = Ok t).
  { unfold trades_per_year. rewrite Hc. cbn [bind]. rewrite Hn. exact Ht. }
  exists t. split; [exact Htr |]. split; [exact Hty |].
  apply (trades_per_year_nonneg pnl tp diy); assumption.
Qed.

Lemma trades_per_year_cell_nonneg_witness :
  exists df trades,
    stat_ts (map day [0; 1; 3]) (map fl [2; 0; 5]) 3 (IdInt 0) "pct" 365 = Ok df
    /\ loc df (IdInt 0) "trades/year" = Some (Some (PyInt trades))
    /\ trades_per_year (map fl [2; 0; 5]) 3 365 = Ok trades
    /\ 0 <= trades.
Proof.
  assert (E : exists df,
             stat_ts (map day [0; 1; 3]) (map fl [2; 0; 5]) 3 (IdInt 0) "pct" 365
             = Ok df) by (eexists; vm_compute; reflexivity).
  destruct E as [df E].
  destruct (trades_per_year_cell_nonneg
              (map day [0; 1; 3]) (map fl [2; 0; 5]) 3 (IdInt 0) "pct" 365 df)
    as (t & Hcell & Hty & Ht); [simpl; lia | lia | lia | exact E |].
  exists df, t. repeat split; assumption.
Defined.

Lemma mul_zero_finite (x : F64.t) (s : bool) (m : positive) (e : Z) :
  is_zero x = true -> is_zero (F64.mul x (S754_finite s m e)) = true.
Proof. destruct x; simpl; intros H; try discriminate; reflexivity. Qed.

Lemma np_round_zero (x : F64.t) (n : Z) :
  n = 2 \/ n = 3 -> is_zero x = true -> is_zero (np_round x n) = true.
Proof.
  intros Hn H. unfold np_round.
  assert (Hf : exists m e, F64.of_Z (10 ^ n) = S754_finite false m e)
    by (destruct Hn as [-> | ->]; eexists _, _; vm_compute; reflexivity).
  destruct Hf as (m & e & ->).
  destruct x as [s | | |]; try discriminate. reflexivity.
Qed.

Lemma is_zero_le (x : F64.t) : is_zero x = true -> F64.leb x F64.zero = true.
Proof. destruct x; simpl; intros H; try discriminate; reflexivity. Qed.

(** X6.  In a returned frame whose non-zero daily bars have finite
    running sums, the [Max DD] cell, after scaling by the unit and
    rounding to 2 decimals, is [<= 0]. *)
Theorem max_dd_cell_nonpos dates pnl tp idx target diy df :
  (1 < length pnl)%nat ->
  stat_ts dates pnl tp idx target diy = Ok df ->
  Forall (fun x => F64.is_finite x = true)
         (np_cumsum (pnl_nz_of (daily_bars (combine dates pnl)))) ->
  exists max_dd,
    loc df idx (String.append "Max DD, " (postfix_of target))
    = Some (Some (PyFloat max_dd))
    /\ F64.leb max_dd F64.zero = true.
Proof.
  intros Hlen H Hfin.
  destruct (stat_ts_normal _ _ _ _ _ _ _ Hlen H)
    as (c & n & t & dd & _ & _ & _ & _ & Hdd & Hcells).
  cbv zeta in Hcells.
  destruct Hcells as (_ & _ & _ & _ & _ & _ & _ & Hmax & _).
  eexists. split; [exact Hmax |].
  destruct (drawdown_nonpos (pnl_nz_of (daily_bars (combine dates pnl))))
    as (d & Hd & Hle); [| exact Hfin |].
  { intros Hnil. rewrite Hnil in Hdd. discriminate. }
  rewrite Hd in Hdd. injection Hdd as <-.
  destruct (scale_finite target) as (m & e & ->).
  destruct (nonpos_cases d Hle) as [Hz | Hs].
  - apply is_zero_le, np_round_zero; [auto |]. apply mul_zero_finite, Hz.
  - apply has_sign_neg_le, np_round_sign; [auto |].
    change true with (xorb true false). apply mul_finite_sign, Hs.
Qed.

Lemma max_dd_cell_nonpos_witness :
  exists df max_dd,
    stat_ts (map day [0; 1; 3]) (map fl [2; -3; 5]) 3 (IdInt 0) "pct" 365 = Ok df
    /\ loc df (IdInt 0) "Max DD, %" = Some (Some (PyFloat max_dd))
    /\ F64.leb max_dd F64.zero = true.
Proof.
  assert (E : exists df,
             stat_ts (map day [0; 1; 3]) (map fl [2; -3; 5]) 3 (IdInt 0) "pct" 365
             = Ok df) by (eexists; vm_compute; reflexivity).
  destruct E as [df E].
  destruct (max_dd_cell_nonpos
              (map day [0; 1; 3]) (map fl [2; -3; 5]) 3 (IdInt 0) "pct" 365 df)
    as (x & Hcell & Hx);
    [simpl; lia | exact E | vm_compute; repeat constructor |].
  exists df, x. repeat split; assumption.
Defined.

Lemma abs_sign (s : bool) (y : F64.t) :
  has_sign s y = true -> has_sign false (F64.abs y) = true.
Proof. destruct y; simpl; intros H; try discriminate; reflexivity. Qed.

Lemma div_signs (sx sy : bool) (x y : F64.t) :
  has_sign sx x = true -> has_sign sy y = true ->
  is_zero y = false -> F64.is_finite x = true ->
  has_sign (xorb sx sy) (F64.div x y) = true.
Proof.
  intros Hx Hy Hz Hf.
  destruct y as [s | s | | s m e]; try discriminate;
    cbn [has_sign] in Hy; apply eqb_prop in Hy; subst s.
  - destruct x as [s' | s' | | s' m' e']; try discriminate;
      cbn [has_sign] in Hx; apply eqb_prop in Hx; subst s';
      cbn; apply eqb_reflx.
  - apply div_finite_sign, Hx.
Qed.

Lemma truthy_not_zero (x : F64.t) : F64.truthy x = true -> is_zero x = false.
Proof. destruct x as [[] | | |]; cbn; intros H; try discriminate; reflexivity. Qed.

(** The profit factor is never negative: it is [+inf], or an absolute
    value. *)
Lemma profit_factor_sign (df_pnl : list F64.t) :
  (has_sign false (profit_factor_of df_pnl) = true
   \/ F64.is_nan (profit_factor_of df_pnl) = true)
  /\ (F64.is_finite (pd_sum (filter is_pos df_pnl)) = true ->
      has_sign false (profit_factor_of df_pnl) = true).
Proof.
  unfold profit_factor_of.
  destruct (F64.truthy (pd_sum (filter is_neg df_pnl))) eqn:Ht;
    [| split; [left |]; reflexivity].
  assert (Hne : filter is_neg df_pnl <> []).
  { intros Hnil. rewrite Hnil in Ht. discriminate. }
  pose proof (negative_sum_sign df_pnl Hne) as Hn.
  pose proof (positive_sum_sign df_pnl) as Hp.
  assert (Hfin : F64.is_finite (pd_sum (filter is_pos df_pnl)) = true ->
                 has_sign false
                   (F64.abs (F64.div (pd_sum (filter is_pos df_pnl))
                                     (pd_sum (filter is_neg df_pnl)))) = true).
  { intros Hf. eapply abs_sign, div_signs; try eassumption.
    apply truthy_not_zero, Ht. }
  split; [| exact Hfin].
  destruct (F64.is_finite (pd_sum (filter is_pos df_pnl))) eqn:Hf;
    [left; apply Hfin; reflexivity |].
  destruct (pd_sum (filter is_pos df_pnl)) as [| sp | |]; try discriminate.
  destruct (pd_sum (filter is_neg df_pnl)) as [sn | sn | | sn m e];
    try discriminate; cbn; auto.
Qed.

(** X7.  In a returned frame the [PF] cell is never negative: it is
    [>= 0], or NaN, and it is [>= 0] whenever the sum of the winning
    daily bars is finite. *)
Theorem profit_factor_cell_nonneg dates pnl tp idx target diy df :
  (1 < length pnl)%nat ->
  stat_ts dates pnl tp idx target diy = Ok df ->
  exists pf,
    loc df idx "PF" = Some (Some (PyFloat pf))
    /\ (F64.geb pf F64.zero = true \/ F64.is_nan pf = true)
    /\ (F64.is_finite
          (pd_sum (filter is_pos (daily_bars (combine dates pnl)))) = true ->
        F64.geb pf F64.zero = true).
Proof.
  intros Hlen H.
  destruct (stat_ts_normal _ _ _ _ _ _ _ Hlen H)
    as (c & n & t & dd & _ & _ & _ & _ & _ & Hcells).
  cbv zeta in Hcells. destruct Hcells as (_ & _ & _ & _ & _ & _ & Hpf & _).
  eexists. split; [exact Hpf |].
  destruct (profit_factor_sign (daily_bars (combine dates pnl))) as [Hs Hfin].
  split.
  - destruct Hs as [Hs | Hnan].
    + left. apply has_sign_pos_ge, np_round_sign; auto.
    + right. destruct (profit_factor_of _); try discriminate.
      rewrite np_round_nan. reflexivity.
  - intros Hf. apply has_sign_pos_ge, np_round_sign; auto.
Qed.

Lemma profit_factor_cell_nonneg_witness :
  exists df pf,
    stat_ts (map day [0; 1; 3]) (map fl [2; -3; 5]) 3 (IdInt 0) "pct" 365 = Ok df
    /\ loc df (IdInt 0) "PF" = Some (Some (PyFloat pf))
    /\ F64.geb pf F64.zero = true.
Proof.
  assert (E : exists df,
             stat_ts (map day [0; 1; 3]) (map fl [2; -3; 5]) 3 (IdInt 0) "pct" 365
             = Ok df) by (eexists; vm_compute; reflexivity).
  destruct E as [df E].
  destruct (profit_factor_cell_nonneg
              (map day [0; 1; 3]) (map fl [2; -3; 5]) 3 (IdInt 0) "pct" 365 df)
    as (x & Hcell & _ & Hx); [simpl; lia | exact E |].
  exists df, x. repeat split; [assumption .. |].
  apply Hx. vm_compute. reflexivity.
Defined.

(** ** Sortino ratio without a losing day, and a run of losing days only *)

Lemma sum_of_zeros (n : nat) : np_sum (repeat F64.zero n) = F64.zero.
Proof.
  unfold np_sum. induction n as [| n IH]; [reflexivity | exact IH].
Qed.

Lemma dropna_zeros (n : nat) : dropna (repeat F64.zero n) = repeat F64.zero n.
Proof. induction n as [| n IH]; [reflexivity |]. simpl. rewrite IH. reflexivity. Qed.

(** The population standard deviation of a column of zeros is zero. *)
Lemma std_of_zeros (n : nat) :
  (0 < n)%nat -> Z.of_nat n < 2 ^ 53 -> pd_std0 (repeat F64.zero n) = F64.zero.
Proof.
  intros Hpos Hsmall.
  unfold pd_std0, pd_mean, pd_sum, pd_count.
  rewrite dropna_zeros, sum_of_zeros, repeat_length.
  destruct (Z.of_nat n) as [| p | p] eqn:Hn; try lia.
  destruct (of_Z_small p Hsmall) as (m & e & ->).
  cbn [F64.div SFdiv xorb].
  change (S754_zero false) with F64.zero.
  rewrite map_repeat. cbn [F64.sub SFsub F64.mul SFmul F64.zero xorb].
  change (S754_zero false) with F64.zero. rewrite sum_of_zeros.
  reflexivity.
Qed.

Lemma pnl_negative_without_loss (df_pnl : list F64.t) :
  Forall (fun x => is_neg x = false) df_pnl ->
  pnl_negative df_pnl = repeat F64.zero (length df_pnl).
Proof.
  unfold pnl_negative. induction 1 as [| x l Hx _ IH]; [reflexivity |].
  simpl. rewrite Hx, IH. reflexivity.
Qed.

Lemma daily_bars_not_empty dates pnl tp idx target diy df :
  (1 < length pnl)%nat ->
  stat_ts dates pnl tp idx target diy = Ok df ->
  daily_bars (combine dates pnl) <> [].
Proof.
  intros Hlen H.
  destruct (stat_ts_normal _ _ _ _ _ _ _ Hlen H)
    as (c & n & t & dd & _ & _ & _ & _ & Hdd & _).
  intros Hnil. rewrite Hnil in Hdd. discriminate.
Qed.

(** X8.  In a returned frame whose daily bars (fewer than [2^53])
    contain no strictly negative value, the downside deviation is zero
    and the [sortino] cell is [+inf], whatever the mean is. *)
Theorem sortino_inf_without_losing_day dates pnl tp idx target diy df :
  (1 < length pnl)%nat ->
  stat_ts dates pnl tp idx target diy = Ok df ->
  let df_pnl := daily_bars (combine dates pnl) in
  Forall (fun x => is_neg x = false) df_pnl ->
  Z.of_nat (length df_pnl) < 2 ^ 53 ->
  pd_std0 (pnl_negative df_pnl) = F64.zero
  /\ loc df idx "sortino" = Some (Some (PyFloat F64.inf)).
Proof.
  intros Hlen H df_pnl Hneg Hsmall.
  assert (Hstd : pd_std0 (pnl_negative df_pnl) = F64.zero).
  { rewrite pnl_negative_without_loss by exact Hneg.
    apply std_of_zeros; [| exact Hsmall].
    pose proof (daily_bars_not_empty _ _ _ _ _ _ _ Hlen H) as Hne.
    fold df_pnl in Hne. destruct df_pnl; [contradiction | simpl; lia]. }
  split; [exact Hstd |].
  destruct (stat_ts_normal_cells _ _ _ _ _ _ _ Hlen H) as (Hso & _).
  cbv zeta in Hso. fold df_pnl in Hso. rewrite Hso.
  unfold sortino_of. rewrite Hstd. reflexivity.
Qed.

Lemma sortino_inf_without_losing_day_witness :
  exists df,
    stat_ts (map day [0; 1; 3]) (map fl [2; 0; 5]) 3 (IdInt 0) "pct" 365 = Ok df
    /\ loc df (IdInt 0) "sortino" = Some (Some (PyFloat F64.inf)).
Proof.
  assert (E : exists df,
             stat_ts (map day [0; 1; 3]) (map fl [2; 0; 5]) 3 (IdInt 0) "pct" 365
             = Ok df) by (eexists; vm_compute; reflexivity).
  destruct E as [df E].
  destruct (sortino_inf_without_losing_day
              (map day [0; 1; 3]) (map fl [2; 0; 5]) 3 (IdInt 0) "pct" 365 df)
    as [_ Hcell];
    [simpl; lia | exact E | vm_compute; repeat constructor
    | vm_compute; reflexivity |].
  exists df. split; assumption.
Defined.

Lemma filter_none (A : Type) (f : A -> bool) (l : list A) :
  Forall (fun x => f x = false) l -> filter f l = [].
Proof.
  induction 1 as [| x l Hx _ IH]; [reflexivity |].
  simpl. rewrite Hx. exact IH.
Qed.

Lemma existsb_none (A : Type) (f : A -> bool) (l : list A) :
  Forall (fun x => f x = false) l -> existsb f l = false.
Proof.
  induction 1 as [| x l Hx _ IH]; [reflexivity |].
  simpl. rewrite Hx. exact IH.
Qed.

Lemma longest_run_none (p : F64.t -> bool) (l : list F64.t) :
  Forall (fun x => p x = false) l -> longest_run_spec p l = 0%nat.
Proof.
  induction 1 as [| x l Hx _ IH]; [reflexivity |].
  simpl. rewrite Hx, IH. reflexivity.
Qed.

Lemma nz_forall (P : F64.t -> Prop) (df_pnl : list F64.t) :
  Forall P df_pnl -> Forall P (pnl_nz_of df_pnl).
Proof.
  intros H. apply Forall_forall. intros x Hx.
  apply filter_In in Hx as [Hx _]. rewrite Forall_forall in H. apply H, Hx.
Qed.

(** X9.  In a returned frame with no winning daily bar and losing bars
    whose sum is not zero: the profit factor is [0.0], so the guard of
    the Kelly formula applies and [Kelly, %] is the integer 0; the
    average win is the integer 0 and there is no winning streak. *)
Theorem losing_days_only dates pnl tp idx target diy df :
  (1 < length pnl)%nat ->
  stat_ts dates pnl tp idx target diy = Ok df ->
  let df_pnl := daily_bars (combine dates pnl) in
  Forall (fun x => is_pos x = false) df_pnl ->
  F64.truthy (pd_sum (filter is_neg df_pnl)) = true ->
  profit_factor_of df_pnl = F64.zero
  /\ loc df idx "PF" = Some (Some (PyFloat F64.zero))
  /\ loc df idx "Kelly, %" = Some (Some (PyInt 0))
  /\ loc df idx (String.append "Avg Win, " (postfix_of target))
     = Some (Some (PyInt 0))
  /\ loc df idx "Max wins in row" = Some (Some (PyInt 0)).
Proof.
  intros Hlen H df_pnl Hpos Htruthy.
  assert (Hpf : profit_factor_of df_pnl = F64.zero).
  { unfold profit_factor_of. rewrite Htruthy, (filter_none _ _ _ Hpos).
    assert (Hne : filter is_neg df_pnl <> [])
      by (intros Hnil; rewrite Hnil in Htruthy; discriminate).
    pose proof (negative_sum_sign df_pnl Hne) as Hs.
    pose proof (truthy_not_zero _ Htruthy) as Hz.
    destruct (pd_sum (filter is_neg df_pnl)) as [s | s | | s m e];
      try discriminate; reflexivity. }
  destruct (stat_ts_normal _ _ _ _ _ _ _ Hlen H)
    as (c & n & t & dd & _ & _ & _ & _ & _ & Hcells).
  cbv zeta in Hcells. fold df_pnl in Hcells.
  destruct Hcells as (_ & _ & Hk & _ & _ & _ & Hcell & _ & Hw & _).
  destruct (stat_ts_normal_cells _ _ _ _ _ _ _ Hlen H) as (_ & _ & Haw & _).
  cbv zeta in Haw. fold df_pnl in Haw.
  split; [exact Hpf |].
  split; [rewrite Hcell, Hpf; reflexivity |].
  split; [rewrite Hk, Hpf; reflexivity |].
  split.
  - rewrite Haw. unfold avg_of. rewrite (existsb_none _ _ _ Hpos). reflexivity.
  - rewrite Hw, calc_consecutive_spec.
    rewrite longest_run_none; [reflexivity |].
    apply nz_forall. exact Hpos.
Qed.

Lemma losing_days_only_witness :
  exists df,
    stat_ts (map day [0; 1; 2]) (map fl [-1; -1; -2]) 3 (IdInt 0) "nom" 365 = Ok df
    /\ loc df (IdInt 0) "PF" = Some (Some (PyFloat F64.zero))
    /\ loc df (IdInt 0) "Kelly, %" = Some (Some (PyInt 0)).
Proof.
  assert (E : exists df,
             stat_ts (map day [0; 1; 2]) (map fl [-1; -1; -2]) 3 (IdInt 0) "nom" 365
             = Ok df) by (eexists; vm_compute; reflexivity).
  destruct E as [df E].
  destruct (losing_days_only
              (map day [0; 1; 2]) (map fl [-1; -1; -2]) 3 (IdInt 0) "nom" 365 df)
    as (_ & Hpf & Hk & _);
    [simpl; lia | exact E | vm_compute; repeat constructor
    | vm_compute; reflexivity |].
  exists df. repeat split; assumption.
Defined.

(** ** Streaks on the non-zero daily bars *)

Lemma longest_run_all (p : F64.t -> bool) (l : list F64.t) :
  forallb p l = true -> longest_run_spec p l = length l.
Proof.
  intros H.
  assert (Hrun : forall l', forallb p l' = true -> run_from p l' = length l').
  { induction l' as [| x l' IH]; [reflexivity |]. simpl. intros Hl'.
    apply andb_true_iff in Hl' as [-> Hl']. rewrite IH by exact Hl'. reflexivity. }
  induction l as [| x l IH]; [reflexivity |].
  cbn [longest_run_spec]. rewrite (Hrun _ H).
  simpl in H. apply andb_true_iff in H as [_ H]. rewrite IH by exact H.
  cbn [length]. lia.
Qed.

Lemma longest_run_skip (p : F64.t -> bool) (zs l : list F64.t) :
  Forall (fun z => p z = false) zs ->
  longest_run_spec p (zs ++ l) = longest_run_spec p l.
Proof.
  induction 1 as [| z zs Hz _ IH]; [reflexivity |].
  simpl. rewrite Hz, IH. reflexivity.
Qed.

Lemma longest_run_le_count (p : F64.t -> bool) (l : list F64.t) :
  (longest_run_spec p l <= length (filter p l))%nat.
Proof.
  assert (Hrun : forall l', (run_from p l' <= length (filter p l'))%nat).
  { induction l' as [| x l' IH]; [simpl; lia |].
    simpl. destruct (p x); simpl; lia. }
  induction l as [| x l IH]; [simpl; lia |].
  cbn [longest_run_spec]. specialize (Hrun (x :: l)).
  simpl filter in *. destruct (p x); simpl in *; lia.
Qed.

Lemma longest_run_zero_iff (p : F64.t -> bool) (l : list F64.t) :
  longest_run_spec p l = 0%nat <-> Forall (fun x => p x = false) l.
Proof.
  split; [| apply longest_run_none].
  induction l as [| x l IH]; intros H; constructor.
  - cbn [longest_run_spec run_from] in H. destruct (p x); [lia | reflexivity].
  - apply IH. cbn [longest_run_spec] in H. lia.
Qed.

Lemma disjoint_counts (p q : F64.t -> bool) (l : list F64.t) :
  (forall x, p x = true -> q x = false) ->
  (length (filter p l) + length (filter q l) <= length l)%nat.
Proof.
  intros Hpq. induction l as [| x l IH]; [simpl; lia |].
  simpl. destruct (p x) eqn:Hp.
  - rewrite (Hpq x Hp). simpl. lia.
  - destruct (q x); simpl; lia.
Qed.

Lemma pos_not_neg (x : F64.t) : is_pos x = true -> is_neg x = false.
Proof.
  destruct x as [[] | [] | | [] m e]; cbn; intros H; try discriminate; reflexivity.
Qed.

Lemma filter_zeros_nz (zs : list F64.t) :
  Forall (fun z => is_zero z = true) zs -> pnl_nz_of zs = [].
Proof.
  intros H. apply filter_none. eapply Forall_impl; [| exact H].
  intros z Hz. destruct z as [[] | | |]; try discriminate; reflexivity.
Qed.

Lemma filter_matching_nz (positive : bool) (w : list F64.t) :
  forallb (cond_of positive) w = true -> pnl_nz_of w = w.
Proof.
  unfold pnl_nz_of. induction w as [| x w IH]; [reflexivity |].
  simpl. intros H. apply andb_true_iff in H as [Hx Hw].
  rewrite IH by exact Hw.
  assert (is_nonzero x = true) as ->; [| reflexivity].
  destruct positive, x as [[] | [] | | [] m e]; cbn in Hx;
    try discriminate; reflexivity.
Qed.

(** X10.  Days whose bar is zero do not break a streak: the streaks are
    counted on the non-zero daily bars, so two runs of winning (or
    losing) days separated by flat days only count as one streak, while
    [_calc_consecutive] applied to the bars themselves would stop at
    the first zero.  Dropping or adding flat days changes neither the
    streaks nor the drawdown. *)
Theorem flat_days_do_not_break_streaks
    (positive : bool) (w1 zs w2 pre post : list F64.t) :
  forallb (cond_of positive) w1 = true ->
  forallb (cond_of positive) w2 = true ->
  Forall (fun z => is_zero z = true) zs ->
  _calc_consecutive (pnl_nz_of (w1 ++ zs ++ w2)) positive
  = Z.of_nat (length w1 + length w2)
  /\ (zs <> [] ->
      _calc_consecutive (w1 ++ zs ++ w2) positive
      = Z.of_nat (Nat.max (length w1) (length w2)))
  /\ pnl_nz_of (pre ++ zs ++ post) = pnl_nz_of (pre ++ post)
  /\ drawdown_of (pnl_nz_of (pre ++ zs ++ post))
     = drawdown_of (pnl_nz_of (pre ++ post)).
Proof.
  intros H1 H2 Hz.
  assert (Hdrop : forall a b, pnl_nz_of (a ++ zs ++ b) = pnl_nz_of (a ++ b)).
  { intros a b. unfold pnl_nz_of. rewrite !filter_app.
    fold (pnl_nz_of zs). rewrite (filter_zeros_nz zs Hz). reflexivity. }
  assert (Hnomatch : Forall (fun z => cond_of positive z = false) zs).
  { eapply Forall_impl; [| exact Hz].
    intros z Hzz. destruct positive, z as [[] | | |]; try discriminate; reflexivity. }
  split.
  { rewrite Hdrop, calc_consecutive_spec.
    unfold pnl_nz_of. rewrite filter_app.
    fold (pnl_nz_of w1) (pnl_nz_of w2).
    rewrite (filter_matching_nz positive w1 H1), (filter_matching_nz positive w2 H2).
    rewrite longest_run_all, length_app; [reflexivity |].
    rewrite forallb_app, H1, H2. reflexivity. }
  split.
  { intros Hne. rewrite calc_consecutive_spec.
    destruct zs as [| z zs']; [contradiction |].
    inversion Hnomatch as [| ? ? Hzc Hrest]; subst.
    rewrite <- app_comm_cons, longest_run_split by exact Hzc.
    rewrite longest_run_skip by exact Hrest.
    rewrite !longest_run_all by assumption. reflexivity. }
  split; [apply Hdrop |].
  rewrite Hdrop. reflexivity.
Qed.

Lemma flat_days_do_not_break_streaks_witness :
  _calc_consecutive (pnl_nz_of (map fl [1; 2] ++ map fl [0] ++ map fl [3])) true
  = Z.of_nat (length (map fl [1; 2]) + length (map fl [3])).
Proof.
  apply (flat_days_do_not_break_streaks
           true (map fl [1; 2]) (map fl [0]) (map fl [3]) [] []).
  - reflexivity.
  - reflexivity.
  - repeat constructor.
Defined.

Lemma nz_filter_pos (df_pnl : list F64.t) :
  filter is_pos (pnl_nz_of df_pnl) = filter is_pos df_pnl.
Proof.
  unfold pnl_nz_of. induction df_pnl as [| x l IH]; [reflexivity |].
  simpl. destruct (is_nonzero x) eqn:Hnz; simpl; rewrite IH; [reflexivity |].
  destruct (is_pos x) eqn:Hp; [| reflexivity].
  rewrite (pos_is_nonzero x Hp) in Hnz. discriminate.
Qed.

Lemma neg_is_nonzero (x : F64.t) : is_neg x = true -> is_nonzero x = true.
Proof. destruct x as [[] | [] | | [] m e]; cbn; intros H; congruence. Qed.

Lemma nz_filter_neg (df_pnl : list F64.t) :
  filter is_neg (pnl_nz_of df_pnl) = filter is_neg df_pnl.
Proof.
  unfold pnl_nz_of. induction df_pnl as [| x l IH]; [reflexivity |].
  simpl. destruct (is_nonzero x) eqn:Hnz; simpl; rewrite IH; [reflexivity |].
  destruct (is_neg x) eqn:Hp; [| reflexivity].
  rewrite (neg_is_nonzero x Hp) in Hnz. discriminate.
Qed.

Lemma filter_nil_iff (f : F64.t -> bool) (l : list F64.t) :
  filter f l = [] <-> Forall (fun x => f x = false) l.
Proof.
  split; [| apply filter_none].
  induction l as [| x l IH]; intros H; constructor; simpl in H;
    destruct (f x); try discriminate; auto.
Qed.

(** X11.  In a returned frame the two streak cells are non-negative
    integers, each at most the number of winning (losing) daily bars,
    and together at most the number of non-zero daily bars; a streak
    cell is 0 exactly when no daily bar has that sign. *)
Theorem streak_cells_bounded dates pnl tp idx target diy df :
  (1 < length pnl)%nat ->
  stat_ts dates pnl tp idx target diy = Ok df ->
  let df_pnl := daily_bars (combine dates pnl) in
  exists wins losses,
    loc df idx "Max wins in row" = Some (Some (PyInt wins))
    /\ loc df idx "Max losses in row" = Some (Some (PyInt losses))
    /\ 0 <= wins <= Z.of_nat (length (filter is_pos df_pnl))
    /\ 0 <= losses <= Z.of_nat (length (filter is_neg df_pnl))
    /\ wins + losses <= Z.of_nat (length (pnl_nz_of df_pnl))
    /\ (wins = 0 <-> Forall (fun x => is_pos x = false) df_pnl)
    /\ (losses = 0 <-> Forall (fun x => is_neg x = false) df_pnl).
Proof.
  intros Hlen H df_pnl.
  destruct (stat_ts_normal _ _ _ _ _ _ _ Hlen H)
    as (c & n & t & dd & _ & _ & _ & _ & _ & Hcells).
  cbv zeta in Hcells. fold df_pnl in Hcells.
  destruct Hcells as (_ & _ & _ & _ & _ & _ & _ & _ & Hw & Hl).
  rewrite calc_consecutive_spec in Hw, Hl.
  change (cond_of true) with is_pos in Hw.
  change (cond_of false) with is_neg in Hl.
  eexists _, _. split; [exact Hw |]. split; [exact Hl |].
  pose proof (longest_run_le_count is_pos (pnl_nz_of df_pnl)) as Bw.
  pose proof (longest_run_le_count is_neg (pnl_nz_of df_pnl)) as Bl.
  pose proof (disjoint_counts is_pos is_neg (pnl_nz_of df_pnl) pos_not_neg) as Bd.
  rewrite nz_filter_pos in *. rewrite nz_filter_neg in *.
  split; [lia |]. split; [lia |]. split; [lia |].
  split.
  - rewrite <- filter_nil_iff, <- nz_filter_pos, filter_nil_iff.
    rewrite <- longest_run_zero_iff. lia.
  - rewrite <- filter_nil_iff, <- nz_filter_neg, filter_nil_iff.
    rewrite <- longest_run_zero_iff. lia.
Qed.

Lemma streak_cells_bounded_witness :
  exists df wins losses,
    stat_ts (map day [0; 1; 3]) (map fl [2; -3; 5]) 3 (IdInt 0) "pct" 365 = Ok df
    /\ loc df (IdInt 0) "Max wins in row" = Some (Some (PyInt wins))
    /\ loc df (IdInt 0) "Max losses in row" = Some (Some (PyInt losses))
    /\ 0 <= wins /\ 0 <= losses.
Proof.
  assert (E : exists df,
             stat_ts (map day [0; 1; 3]) (map fl [2; -3; 5]) 3 (IdInt 0) "pct" 365
             = Ok df) by (eexists; vm_compute; reflexivity).
  destruct E as [df E].
  destruct (streak_cells_bounded
              (map day [0; 1; 3]) (map fl [2; -3; 5]) 3 (IdInt 0) "pct" 365 df)
    as (w & l & Hw & Hl & Bw & Bl & _); [simpl; lia | exact E |].
  exists df, w, l. repeat split; try assumption; lia.
Defined.

Lemma cond_of_opp (positive : bool) (x : F64.t) :
  cond_of positive (SFopp x) = cond_of (negb positive) x.
Proof.
  destruct positive, x as [[] | [] | | [] m e]; reflexivity.
Qed.

Lemma longest_run_map (p q : F64.t -> bool) (f : F64.t -> F64.t) (l : list F64.t) :
  (forall x, p (f x) = q x) ->
  longest_run_spec p (map f l) = longest_run_spec q l.
Proof.
  intros Hpq.
  assert (Hrun : forall l', run_from p (map f l') = run_from q l').
  { induction l' as [| x l' IH]; [reflexivity |]. simpl. rewrite Hpq, IH. reflexivity. }
  induction l as [| x l IH]; [reflexivity |].
  cbn [longest_run_spec map]. rewrite <- IH. f_equal. apply (Hrun (x :: l)).
Qed.

(** X12.  Changing the sign of every value exchanges winning and losing
    streaks. *)
Theorem streaks_swap_under_negation (series : list F64.t) (positive : bool) :
  _calc_consecutive (map SFopp series) positive
  = _calc_consecutive series (negb positive).
Proof.
  rewrite !calc_consecutive_spec. f_equal.
  apply longest_run_map. intros x. apply cond_of_opp.
Qed.

(** ** Row order, unit mode *)

Lemma sorted_distinct_strict (l : list (Z * F64.t)) :
  StronglySorted by_time l -> NoDup (map fst l) ->
  StronglySorted (fun a b => fst a < fst b) l.
Proof.
  induction 1 as [| r l Hl IH Hr]; intros Hnd; constructor;
    inversion Hnd as [| ? ? Hnotin Hnd']; subst.
  - apply IH, Hnd'.
  - rewrite Forall_forall in *. intros x Hx.
    specialize (Hr x Hx). unfold by_time in Hr.
    assert (fst r <> fst x); [| lia].
    intros Heq. apply Hnotin. rewrite Heq. apply in_map, Hx.
Qed.

(** Two lists in strictly increasing order of timestamps with the same
    rows are equal. *)
Lemma strict_sorted_ext (l1 : list (Z * F64.t)) :
  forall l2,
    StronglySorted (fun a b => fst a < fst b) l1 ->
    StronglySorted (fun a b => fst a < fst b) l2 ->
    (forall x, In x l1 <-> In x l2) -> l1 = l2.
Proof.
  induction l1 as [| a l1 IH]; intros l2 H1 H2 Hin.
  - destruct l2 as [| b l2]; [reflexivity |].
    destruct (proj2 (Hin b)). left; reflexivity.
  - destruct l2 as [| b l2]; [destruct (proj1 (Hin a)); left; reflexivity |].
    inversion H1 as [| ? ? H1' Ha]; inversion H2 as [| ? ? H2' Hb]; subst.
    rewrite Forall_forall in Ha, Hb.
    assert (a = b) as <-.
    { destruct (proj1 (Hin a)) as [E | E]; [left; reflexivity | auto |].
      destruct (proj2 (Hin b)) as [E' | E']; [left; reflexivity | auto |].
      specialize (Ha _ E'). specialize (Hb _ E). lia. }
    f_equal. apply IH; try assumption.
    intros x. split; intros Hx.
    + destruct (proj1 (Hin x)) as [E | E]; [right; exact Hx | | exact E].
      specialize (Ha _ Hx). subst. lia.
    + destruct (proj2 (Hin x)) as [E | E]; [right; exact Hx | | exact E].
      specialize (Hb _ Hx). subst. lia.
Qed.

Lemma sort_by_time_perm_eq (rows rows' : list (Z * F64.t)) :
  Permutation rows rows' -> NoDup (map fst rows) ->
  sort_by_time rows = sort_by_time rows'.
Proof.
  intros Hp Hnd.
  assert (Hp1 : Permutation (sort_by_time rows) rows) by apply sort_by_time_perm.
  assert (Hp2 : Permutation (sort_by_time rows') rows') by apply sort_by_time_perm.
  apply strict_sorted_ext.
  - apply sorted_distinct_strict; [apply sort_by_time_sorted |].
    eapply Permutation_NoDup; [| exact Hnd].
    apply Permutation_map. symmetry. exact Hp1.
  - apply sorted_distinct_strict; [apply sort_by_time_sorted |].
    eapply Permutation_NoDup; [| exact Hnd].
    apply Permutation_map. rewrite Hp2. exact Hp.
  - intros x. split; intros Hx.
    + eapply Permutation_in; [symmetry; exact Hp2 |].
      eapply Permutation_in; [exact Hp |].
      eapply Permutation_in; [exact Hp1 | exact Hx].
    + eapply Permutation_in; [symmetry; exact Hp1 |].
      eapply Permutation_in; [symmetry; exact Hp |].
      eapply Permutation_in; [exact Hp2 | exact Hx].
Qed.

(** X13.  When the timestamps are pairwise distinct, the daily bars do
    not depend on the order in which the rows are given: resampling
    orders them by time first. *)
Theorem daily_bars_ignore_row_order (rows rows' : list (Z * F64.t)) :
  Permutation rows rows' ->
  NoDup (map fst rows) ->
  resample_1D_sum rows = resample_1D_sum rows'
  /\ daily_bars rows = daily_bars rows'.
Proof.
  intros Hp Hnd.
  assert (H : resample_1D_sum rows = resample_1D_sum rows').
  { unfold resample_1D_sum. rewrite (sort_by_time_perm_eq _ _ Hp Hnd). reflexivity. }
  split; [exact H |]. unfold daily_bars. rewrite H. reflexivity.
Qed.

Lemma daily_bars_ignore_row_order_witness :
  daily_bars [(day 2, fl 5); (day 0, fl 1); (day 1 + 7, fl 3)]
  = daily_bars [(day 0, fl 1); (day 1 + 7, fl 3); (day 2, fl 5)].
Proof.
  apply (daily_bars_ignore_row_order
           [(day 2, fl 5); (day 0, fl 1); (day 1 + 7, fl 3)]
           [(day 0, fl 1); (day 1 + 7, fl 3); (day 2, fl 5)]).
  - apply Permutation_cons_app with (l1 := [(day 0, fl 1); (day 1 + 7, fl 3)]) (l2 := []).
    reflexivity.
  - vm_compute. repeat constructor; simpl; intuition discriminate.
Defined.

(** X14.  Only the string ["pct"] selects percentage units: with any
    other unit mode, misspelt ones included, the call behaves exactly as
    with ["nom"]. *)
Theorem other_unit_modes_are_nominal dates pnl tp idx target diy :
  target <> "pct" ->
  stat_ts dates pnl tp idx target diy = stat_ts dates pnl tp idx "nom" diy.
Proof.
  intros Ht. apply String.eqb_neq in Ht.
  unfold stat_ts, _empty_row, avg_of, postfix_of, scale_of.
  rewrite Ht. reflexivity.
Qed.

Lemma other_unit_modes_are_nominal_witness :
  stat_ts (map day [0; 1]) (map fl [1; -2]) 2 (IdInt 0) "PCT" 365
  = stat_ts (map day [0; 1]) (map fl [1; -2]) 2 (IdInt 0) "nom" 365.
Proof.
  apply (other_unit_modes_are_nominal
           (map day [0; 1]) (map fl [1; -2]) 2 (IdInt 0) "PCT" 365).
  discriminate.
Defined.

(** X15.  The unit mode changes only the five cells whose name carries
    the unit: the frames returned for two unit modes on the same data
    agree on [sharpe], [sortino], [Kelly, %], [trades/year], [PF],
    [Win, %] and the two streaks; and one returns a frame exactly when
    the other does. *)
Theorem unit_mode_leaves_ratios dates pnl tp idx target target' diy df :
  stat_ts dates pnl tp idx target diy = Ok df ->
  exists df',
    stat_ts dates pnl tp idx target' diy = Ok df'
    /\ Forall (fun name => loc df idx name = loc df' idx name)
         [ "sharpe"; "sortino"; "Kelly, %"; "trades/year"; "PF"; "Win, %";
           "Max wins in row"; "Max losses in row" ].
Proof.
  unfold stat_ts.
  destruct (length pnl <=? 1)%nat.
  - intros H. injection H as <-. eexists. split; [reflexivity |].
    unfold loc. cbn [index _empty_row DataFrame_of_scalars position].
    rewrite row_id_eqb_refl. repeat constructor.
  - destruct (int_truediv diy tp); [cbn [bind] | discriminate].
    destruct (float_of_int _); [cbn [bind] | discriminate].
    destruct (int_of_float _); [cbn [bind] | discriminate].
    destruct (make_frame dates pnl); [cbn [bind] | discriminate].
    destruct (annualised_ratio _ _ _); [cbn [bind] | discriminate].
    destruct (annualised_ratio _ _ _); [cbn [bind] | discriminate].
    destruct (drawdown_of _); [cbn [bind] | discriminate].
    intros H. injection H as <-. eexists. split; [reflexivity |].
    unfold loc. cbn [index columns DataFrame_of_scalars position map fst snd].
    rewrite row_id_eqb_refl. repeat constructor.
Qed.

Lemma unit_mode_leaves_ratios_witness :
  exists df',
    stat_ts (map day [0; 1]) (map fl [1; -2]) 2 (IdInt 0) "nom" 365 = Ok df'.
Proof.
  assert (E : exists df,
             stat_ts (map day [0; 1]) (map fl [1; -2]) 2 (IdInt 0) "pct" 365
             = Ok df) by (eexists; vm_compute; reflexivity).
  destruct E as [df E].
  destruct (unit_mode_leaves_ratios
              (map day [0; 1]) (map fl [1; -2]) 2 (IdInt 0) "pct" "nom" 365 df E)
    as (df' & H & _).
  exists df'. exact H.
Defined.

(** ** Signs of the averages *)

Lemma of_count_finite (n : nat) :
  (0 < n)%nat -> Z.of_nat n < 2 ^ 53 ->
  exists m e, F64.of_Z (Z.of_nat n) = S754_finite false m e.
Proof.
  intros Hpos Hsmall. destruct (Z.of_nat n) as [| p | p] eqn:Hn; try lia.
  apply of_Z_small, Hsmall.
Qed.

Lemma mean_sign (s : bool) (l : list F64.t) :
  l <> [] -> Z.of_nat (length l) < 2 ^ 53 ->
  Forall (fun x => has_sign s x = true) l ->
  has_sign s (pd_sum l) = true ->
  has_sign s (pd_mean l) = true.
Proof.
  intros Hne Hsmall Hl Hsum. unfold pd_mean, pd_count.
  rewrite (dropna_signed s l Hl).
  destruct (of_count_finite (length l)) as (m & e & ->);
    [destruct l; [contradiction | simpl; lia] | exact Hsmall |].
  rewrite <- (xorb_false_r s). apply div_finite_sign, Hsum.
Qed.

Lemma avg_sign (s : bool) (keep : F64.t -> bool) (df_pnl : list F64.t)
    (target : string) :
  Z.of_nat (length df_pnl) < 2 ^ 53 ->
  Forall (fun x => has_sign s x = true) (filter keep df_pnl) ->
  (filter keep df_pnl <> [] -> has_sign s (pd_sum (filter keep df_pnl)) = true) ->
  (existsb keep df_pnl = false /\ avg_of keep df_pnl target = PyInt 0)
  \/ (existsb keep df_pnl = true
      /\ exists avg, avg_of keep df_pnl target = PyFloat avg
                     /\ has_sign s avg = true).
Proof.
  intros Hsmall Hl Hsum. unfold avg_of.
  destruct (existsb keep df_pnl) eqn:Hex; [right | left; split; reflexivity].
  split; [reflexivity |]. eexists. split; [reflexivity |].
  assert (Hne : filter keep df_pnl <> []).
  { apply existsb_exists in Hex as (x & Hin & Hx). intros Hnil.
    assert (In x (filter keep df_pnl)) as Hf by (apply filter_In; auto).
    rewrite Hnil in Hf. destruct Hf. }
  destruct (scale_finite target) as (m & e & ->).
  apply np_round_sign; [auto |].
  rewrite <- (xorb_false_r s). apply mul_finite_sign.
  apply mean_sign; auto.
  pose proof (filter_length_le keep df_pnl). lia.
Qed.

(** X16.  In a returned frame with fewer than [2^53] daily bars: the
    average win is the integer 0 when no daily bar is positive and a
    float [>= 0] otherwise; the average loss is the integer 0 when no
    daily bar is negative and a float [<= 0] otherwise. *)
Theorem average_cells_signs dates pnl tp idx target diy df :
  (1 < length pnl)%nat ->
  stat_ts dates pnl tp idx target diy = Ok df ->
  let df_pnl := daily_bars (combine dates pnl) in
  Z.of_nat (length df_pnl) < 2 ^ 53 ->
  exists avg_win avg_loss,
    loc df idx (String.append "Avg Win, " (postfix_of target))
    = Some (Some avg_win)
    /\ loc df idx (String.append "Avg Loss, " (postfix_of target))
       = Some (Some avg_loss)
    /\ ((existsb is_pos df_pnl = false /\ avg_win = PyInt 0)
        \/ (existsb is_pos df_pnl = true
            /\ exists x, avg_win = PyFloat x /\ F64.geb x F64.zero = true))
    /\ ((existsb is_neg df_pnl = false /\ avg_loss = PyInt 0)
        \/ (existsb is_neg df_pnl = true
            /\ exists x, avg_loss = PyFloat x /\ F64.leb x F64.zero = true)).
Proof.
  intros Hlen H df_pnl Hsmall.
  destruct (stat_ts_normal_cells _ _ _ _ _ _ _ Hlen H) as (_ & _ & Hw & Hl & _).
  cbv zeta in Hw, Hl. fold df_pnl in Hw, Hl.
  eexists _, _. split; [exact Hw |]. split; [exact Hl |]. split.
  - destruct (avg_sign false is_pos df_pnl target Hsmall (filter_pos_signed _))
      as [Hz | (Hex & x & Hx & Hs)]; [intros _; apply positive_sum_sign | auto |].
    right. split; [exact Hex |]. exists x. split; [exact Hx |].
    apply has_sign_pos_ge, Hs.
  - destruct (avg_sign true is_neg df_pnl target Hsmall (filter_neg_signed _))
      as [Hz | (Hex & x & Hx & Hs)]; [apply negative_sum_sign | auto |].
    right. split; [exact Hex |]. exists x. split; [exact Hx |].
    apply has_sign_neg_le, Hs.
Qed.

Lemma average_cells_signs_witness :
  exists df avg_win avg_loss,
    stat_ts (map day [0; 1; 3]) (map fl [2; -3; 5]) 3 (IdInt 0) "pct" 365 = Ok df
    /\ loc df (IdInt 0) "Avg Win, %" = Some (Some avg_win)
    /\ loc df (IdInt 0) "Avg Loss, %" = Some (Some avg_loss).
Proof.
  assert (E : exists df,
             stat_ts (map day [0; 1; 3]) (map fl [2; -3; 5]) 3 (IdInt 0) "pct" 365
             = Ok df) by (eexists; vm_compute; reflexivity).
  destruct E as [df E].
  destruct (average_cells_signs
              (map day [0; 1; 3]) (map fl [2; -3; 5]) 3 (IdInt 0) "pct" 365 df)
    as (w & l & Hw & Hl & _); [simpl; lia | exact E | vm_compute; reflexivity |].
  exists df, w, l. repeat split; assumption.
Defined.
